(** * bandcamp-discover: a shallow embedding of [main.go]

    The program builds one request URL for the Bandcamp Discover API, issues
    one HTTP GET, decodes the JSON answer into a fixed struct and prints one
    album URL per album item.  The embedding follows [main.go] function by
    function: [getURLs], [printGenres], [main] and the table [allGenres].

    Go strings are byte strings; they are modelled by [string] (a list of
    8-bit characters).  Effects (the HTTP request, the response body handle,
    the two output streams, the process exit code) are modelled by explicit
    state passing over a [World]. *)

From Stdlib Require Import Ascii String List.
From stdpp Require Import base option list strings gmap sorting.

#[local] Set Warnings "-clear-no-such-hyp".

(** ** Library functions used by the program *)

Module strings.

(** [strings.Split(s, sep)] for a one-byte separator, the only way the
    program calls it.  The result has one more element than [s] has
    occurrences of [sep]; in particular it is never empty. *)
Fixpoint Split (s : string) (sep : ascii) : list string :=
  match s with
  | EmptyString => [EmptyString]
  | String c rest =>
      if decide (c = sep) then EmptyString :: Split rest sep
      else match Split rest sep with
           | part :: parts => String c part :: parts
           | [] => [String c EmptyString]
           end
  end.

(** Number of occurrences of a byte, [strings.Count] for a one-byte
    pattern. *)
Fixpoint Count (s : string) (sep : ascii) : nat :=
  match s with
  | EmptyString => 0
  | String c rest => (if decide (c = sep) then 1 else 0) + Count rest sep
  end.

End strings.

(** ** The query builder (lines 56-60 of [getURLs]) *)

(** The value of the local variable [u] when [http.Get] is called. *)
Definition request_url (genre subgenre ranking format : string) : string :=
  let u := "https://bandcamp.com/api/discover/3/get_web?" +:+
           "g=" +:+ genre +:+ "&s=" +:+ ranking +:+ "&f=" +:+ format +:+
           "&p=0&gn=0&w=0" in
  if decide (subgenre ≠ "") then u +:+ "&t=" +:+ subgenre else u.

(** ** The decoded data (the anonymous struct [data] of [getURLs]) *)

Record URLHints := {
  Subdomain : string;   (* json:"subdomain"  <subdomain>.bandcamp.com *)
  Slug : string;        (* json:"slug"       /album/<slug> *)
  ItemType : string     (* json:"item_type"  "a" for album *)
}.

Record Item := {
  PrimaryText : string;     (* json:"primary_text"    album *)
  SecondaryText : string;   (* json:"secondary_text"  artist *)
  URLHints_ : URLHints      (* json:"url_hints" *)
}.

(** A Go slice of items as the decoder sees it: the backing array (its
    written part) and the length.  The visible elements are the first
    [slen] ones; a nil slice is [nil_slice]. *)
Record ItemSlice := { backing : list Item; slen : nat }.

Record Data := { Items : ItemSlice (* json:"items" *) }.

Definition zero_URLHints : URLHints :=
  {| Subdomain := ""; Slug := ""; ItemType := "" |}.
Definition zero_Item : Item :=
  {| PrimaryText := ""; SecondaryText := ""; URLHints_ := zero_URLHints |}.
Definition nil_slice : ItemSlice := {| backing := []; slen := 0 |}.
Definition zero_Data : Data := {| Items := nil_slice |}.

(** The elements a [range] loop over the slice visits, in order. *)
Definition elems (s : ItemSlice) : list Item := take (slen s) (backing s).

(** ** [encoding/json]: decoding a JSON value into [data] *)

Module json.

(** A JSON value as the decoder's scanner delivers it: strings and member
    names are already unquoted, object members keep their order and their
    duplicates, numbers keep their literal. *)
#[warnings="-register-all"]
Inductive value :=
| Null
| Bool (b : bool)
| Number (literal : string)
| Str (s : string)
| Array (elements : list value)
| Object (members : list (string * value)).

(** The errors [Decoder.Decode] returns.  Of an [UnmarshalTypeError] only
    the field [Value] (the JSON kind that did not fit) is kept. *)
Inductive error :=
| SyntaxError (msg : string)
| ReadError (msg : string)
| UnmarshalTypeError (Value : string).

(** What reading the first JSON value off a response body gives. *)
Inductive stream :=
| Valid (v : value)
| Invalid (e : error).

(** [d.saveError]: only the first error is kept; decoding goes on. *)
Definition saveError (e : error) (saved : option error) : option error :=
  match saved with
  | None => Some e
  | Some _ => saved
  end.

(** Bytes of the two non-ASCII letters whose simple case folding reaches an
    ASCII letter: U+017F (long s, folds with S) and U+212A (Kelvin sign,
    folds with K). *)
Definition xC5 : ascii := ascii_of_nat 197.
Definition xBF : ascii := ascii_of_nat 191.
Definition xE2 : ascii := ascii_of_nat 226.
Definition x84 : ascii := ascii_of_nat 132.
Definition xAA : ascii := ascii_of_nat 170.

Definition upper (c : ascii) : ascii :=
  let n := nat_of_ascii c in
  if (97 <=? n)%nat && (n <=? 122)%nat then ascii_of_nat (n - 32) else c.

(** [foldName]: the canonical form under which a member name is matched
    with a field name.  ASCII letters are upper-cased, the two letters
    above are replaced by the ASCII letter of their fold set; every other
    byte is kept (all other runes fold to runes outside ASCII). *)
Fixpoint foldName (s : string) : string :=
  match s with
  | EmptyString => EmptyString
  | String c rest =>
      match rest with
      | String c1 rest1 =>
          if decide (c = xC5 ∧ c1 = xBF) then String "S" (foldName rest1)
          else
            match rest1 with
            | String c2 rest2 =>
                if decide (c = xE2 ∧ c1 = x84 ∧ c2 = xAA)
                then String "K" (foldName rest2)
                else String (upper c) (foldName rest)
            | EmptyString => String (upper c) (foldName rest)
            end
      | EmptyString => String (upper c) EmptyString
      end
  end.

(** Does member name [key] select the field tagged [name]?  (An exact match
    is preferred by the decoder, but no two fields of a struct of this
    program share a folded name, so the preference never decides.) *)
Definition matches (name key : string) : bool :=
  bool_decide (foldName key = foldName name).

(** Decoding into a field of kind [string]. *)
Definition decode_string (v : value) (cur : string) (saved : option error)
  : string * option error :=
  match v with
  | Null => (cur, saved)
  | Str s => (s, saved)
  | Bool _ => (cur, saveError (UnmarshalTypeError "bool") saved)
  | Number _ => (cur, saveError (UnmarshalTypeError "number") saved)
  | Array _ => (cur, saveError (UnmarshalTypeError "array") saved)
  | Object _ => (cur, saveError (UnmarshalTypeError "object") saved)
  end.

(** Decoding into a struct: [null] leaves it alone, an object sets the
    fields its members select, one member after the other; members that
    select no field are skipped. *)
Definition decode_struct {T : Type}
    (member : string → value → T → option error → T * option error)
    (v : value) (cur : T) (saved : option error) : T * option error :=
  match v with
  | Null => (cur, saved)
  | Object members =>
      fold_left (λ st kv, member kv.1 kv.2 st.1 st.2) members (cur, saved)
  | Bool _ => (cur, saveError (UnmarshalTypeError "bool") saved)
  | Number _ => (cur, saveError (UnmarshalTypeError "number") saved)
  | Str _ => (cur, saveError (UnmarshalTypeError "string") saved)
  | Array _ => (cur, saveError (UnmarshalTypeError "array") saved)
  end.

Definition URLHints_member (key : string) (v : value) (cur : URLHints)
    (saved : option error) : URLHints * option error :=
  if matches "subdomain" key then
    let r := decode_string v (Subdomain cur) saved in
    ({| Subdomain := r.1; Slug := Slug cur; ItemType := ItemType cur |}, r.2)
  else if matches "slug" key then
    let r := decode_string v (Slug cur) saved in
    ({| Subdomain := Subdomain cur; Slug := r.1; ItemType := ItemType cur |}, r.2)
  else if matches "item_type" key then
    let r := decode_string v (ItemType cur) saved in
    ({| Subdomain := Subdomain cur; Slug := Slug cur; ItemType := r.1 |}, r.2)
  else (cur, saved).

Definition decode_URLHints := decode_struct URLHints_member.

Definition Item_member (key : string) (v : value) (cur : Item)
    (saved : option error) : Item * option error :=
  if matches "primary_text" key then
    let r := decode_string v (PrimaryText cur) saved in
    ({| PrimaryText := r.1; SecondaryText := SecondaryText cur;
        URLHints_ := URLHints_ cur |}, r.2)
  else if matches "secondary_text" key then
    let r := decode_string v (SecondaryText cur) saved in
    ({| PrimaryText := PrimaryText cur; SecondaryText := r.1;
        URLHints_ := URLHints_ cur |}, r.2)
  else if matches "url_hints" key then
    let r := decode_URLHints v (URLHints_ cur) saved in
    ({| PrimaryText := PrimaryText cur; SecondaryText := SecondaryText cur;
        URLHints_ := r.1 |}, r.2)
  else (cur, saved).

Definition decode_Item := decode_struct Item_member.

(** Decoding the elements of an array into the backing array of a slice:
    element [i] is decoded into what the backing array holds at [i] (the
    zero item where nothing was written yet); what lies behind the last
    element stays in the backing array. *)
Fixpoint decode_elements (vs : list value) (arr : list Item)
    (saved : option error) : list Item * option error :=
  match vs with
  | [] => (arr, saved)
  | v :: vs' =>
      let r := decode_Item v (hd zero_Item arr) saved in
      let rs := decode_elements vs' (tl arr) r.2 in
      (r.1 :: rs.1, rs.2)
  end.

(** Decoding into the slice [Items]: [null] makes it nil, an empty array
    makes it a fresh empty slice, an array of [n] elements sets the length
    to [n]. *)
Definition decode_Items (v : value) (cur : ItemSlice) (saved : option error)
  : ItemSlice * option error :=
  match v with
  | Null => (nil_slice, saved)
  | Array [] => (nil_slice, saved)
  | Array vs =>
      let r := decode_elements vs (backing cur) saved in
      ({| backing := r.1; slen := length vs |}, r.2)
  | Bool _ => (cur, saveError (UnmarshalTypeError "bool") saved)
  | Number _ => (cur, saveError (UnmarshalTypeError "number") saved)
  | Str _ => (cur, saveError (UnmarshalTypeError "string") saved)
  | Object _ => (cur, saveError (UnmarshalTypeError "object") saved)
  end.

Definition Data_member (key : string) (v : value) (cur : Data)
    (saved : option error) : Data * option error :=
  if matches "items" key then
    let r := decode_Items v (Items cur) saved in
    ({| Items := r.1 |}, r.2)
  else (cur, saved).

Definition decode_Data := decode_struct Data_member.

(** [json.NewDecoder(body).Decode(&data)] on a zero [data]: the error, if
    any, and the contents of [data] afterwards. *)
Definition Decode (body : stream) : Data * option error :=
  match body with
  | Invalid e => (zero_Data, Some e)
  | Valid v => decode_Data v zero_Data None
  end.

End json.

(** ** The world the program runs in *)

(** The error [http.Get] returns on a transport failure, with the text of its
    [Error] method. *)
Record net_error := NetError { net_Error : string }.

(** The network: what a GET of a URL gives, a transport failure or a response
    whose body holds the given stream. *)
Definition Net := string → net_error + json.stream.

(** The values of the interface type [error] that [getURLs] returns: the
    error made by [fmt.Errorf] (no [%w], so just a text), or the decoder's. *)
Inductive error :=
| Errorf (text : string)
| DecodeErr (e : json.error).

(** An operand of [fmt.Fprintln]. *)
Inductive operand :=
| OStr (s : string)
| OErr (e : error).

(** The two standard streams, as [io.Writer]s. *)
Inductive Writer := Stdout | Stderr.

(** The state of the world: the calls of [http.Get] made so far, each by the
    URL it was given (oldest first; what the HTTP client sends for a call, one
    request, none for a URL it cannot parse, more on a redirect, lies behind
    [Net]), the response bodies handed out and not yet closed, and the calls
    of [fmt.Fprintln] on each standard stream (oldest first; each call writes
    its operands separated by spaces and ends the line). *)
Record World := {
  requests : list string;
  next_body : nat;
  open_bodies : gset nat;
  stdout : list (list operand);
  stderr : list (list operand)
}.

Definition initial_World : World :=
  {| requests := []; next_body := 0; open_bodies := ∅;
     stdout := []; stderr := [] |}.

(** Computations that change the world. *)
Definition M (A : Type) : Type := World → A * World.

Definition ret {A} (a : A) : M A := λ w, (a, w).
Definition bind {A B} (c : M A) (k : A → M B) : M B :=
  λ w, let r := c w in k r.1 r.2.

Notation "x <~ c ;; k" := (bind c (λ x, k))
  (at level 100, c at next level, right associativity).
Notation "c ;;; k" := (bind c (λ _, k))
  (at level 100, right associativity).

(** [defer cleanup] followed by the rest of the function body: the cleanup
    runs when the body has produced the function's results. *)
Definition defer {A} (cleanup : M unit) (body : M A) : M A :=
  r <~ body ;; cleanup ;;; ret r.

(** A response: the handle of its body and what the body holds. *)
Record Response := { Body : nat; content : json.stream }.

Module http.
(** [http.Get(u)]: the call is recorded with its URL; on success a fresh
    body is handed out, open. *)
Definition Get (net : Net) (u : string) : M (net_error + Response) := λ w,
  let w1 := {| requests := requests w ++ [u]; next_body := next_body w;
               open_bodies := open_bodies w;
               stdout := stdout w; stderr := stderr w |} in
  match net u with
  | inl err => (inl err, w1)
  | inr s =>
      (inr {| Body := next_body w; content := s |},
       {| requests := requests w1; next_body := S (next_body w);
          open_bodies := {[next_body w]} ∪ open_bodies w;
          stdout := stdout w; stderr := stderr w |})
  end.

(** [resp.Body.Close()] *)
Definition Close (resp : Response) : M unit := λ w,
  (tt, {| requests := requests w; next_body := next_body w;
          open_bodies := open_bodies w ∖ {[Body resp]};
          stdout := stdout w; stderr := stderr w |}).
End http.

Module fmt.
(** [fmt.Fprintln(w, operands...)] *)
Definition Fprintln (w : Writer) (ops : list operand) : M unit := λ st,
  (tt, match w with
       | Stdout => {| requests := requests st; next_body := next_body st;
                      open_bodies := open_bodies st;
                      stdout := stdout st ++ [ops]; stderr := stderr st |}
       | Stderr => {| requests := requests st; next_body := next_body st;
                      open_bodies := open_bodies st;
                      stdout := stdout st; stderr := stderr st ++ [ops] |}
       end).
End fmt.

(** ** [getURLs] *)

(** One step of the loop of lines 83-91: the URLs collected so far and the
    item visited. *)
Definition getURLs_step (urls : list string) (item : Item) : list string :=
  let uh := URLHints_ item in
  if decide (ItemType uh ≠ "a") then urls
  else urls ++ ["https://" +:+ Subdomain uh +:+ ".bandcamp.com/album/" +:+ Slug uh].

(** The loop of lines 82-91, from [var urls []string] on. *)
Definition getURLs_loop (items : list Item) : list string :=
  fold_left getURLs_step items [].

(** [getURLs]; the Go results [([]string, error)] are a pair, a nil slice is
    [[]] and a nil error is [None]. *)
Definition getURLs (net : Net) (genre subgenre ranking format : string)
  : M (list string * option error) :=
  let u := request_url genre subgenre ranking format in
  r <~ http.Get net u ;;
  match r with
  | inl err => ret ([], Some (Errorf (u +:+ ": " +:+ net_Error err)))
  | inr resp =>
      defer (http.Close resp)
        (let d := json.Decode (content resp) in
         match d.2 with
         | Some err => ret ([], Some (DecodeErr err))
         | None => ret (getURLs_loop (elems (Items d.1)), None)
         end)
  end.

(** ** The genre table *)

(** [allGenres] maps from genres to subgenres. *)
Definition allGenres : gmap string (list string) :=
  list_to_map [
    ("acoustic",
      ["all-acoustic"; "folk"; "singer-songwriter"; "rock"; "pop"; "guitar";
       "americana"; "electro-acoustic"; "instrumental"; "piano"; "bluegrass";
       "roots"]);
    ("alternative",
      ["all-alternative"; "indie-rock"; "industrial"; "shoegaze"; "grunge";
       "goth"; "dream-pop"; "emo"; "math-rock"; "britpop"; "jangle-pop"]);
    ("ambient",
      ["all-ambient"; "chill-out"; "drone"; "dark-ambient"; "electronic";
       "soundscapes"; "field-recordings"; "atmospheric"; "meditation";
       "noise"; "new-age"; "idm"; "industrial"]);
    ("blues",
      ["all-blues"; "rhythm-blues"; "blues-rock"; "country-blues";
       "boogie-woogie"; "delta-blues"; "americana"; "electric-blues";
       "gospel"; "bluegrass"]);
    ("classical",
      ["all-classical"; "orchestral"; "neo-classical"; "chamber-music";
       "classical-piano"; "contemporary-classical"; "baroque"; "opera";
       "choral"; "modern-classical"; "avant-garde"]);
    ("comedy",
      ["all-comedy"; "improv"; "stand-up"]);
    ("country",
      ["all-country"; "bluegrass"; "country-rock"; "americana";
       "country-folk"; "alt-country"; "country-blues"; "western";
       "singer-songwriter"; "outlaw"; "honky-tonk"; "roots"; "hillbilly"]);
    ("devotional",
      ["all-devotional"; "christian"; "gospel"; "meditation"; "spiritual";
       "worship"; "inspirational"]);
    ("electronic",
      ["all-electronic"; "house"; "electronica"; "downtempo"; "techno";
       "electro"; "dubstep"; "beats"; "dance"; "idm"; "drum-bass"; "breaks";
       "trance"; "glitch"; "chiptune"; "chillwave"; "dub"; "edm";
       "instrumental"; "witch-house"; "garage"; "juke"; "footwork";
       "vaporwave"; "synthwave"]);
    ("experimental",
      ["all-experimental"; "noise"; "drone"; "avant-garde";
       "experimental-rock"; "improvisation"; "sound-art"; "musique-concrete"]);
    ("folk",
      ["all-folk"; "singer-songwriter"; "folk-rock"; "indie-folk";
       "pop-folk"; "traditional"; "experimental-folk"; "roots"]);
    ("funk",
      ["all-funk"; "funk-jam"; "deep-funk"; "funk-rock"; "jazz-funk";
       "boogie"; "g-funk"; "rare-groove"; "electro"; "go-go"]);
    ("hip-hop-rap",
      ["all-hip-hop-rap"; "rap"; "underground-hip-hop";
       "instrumental-hip-hop"; "trap"; "conscious-hip-hop"; "boom-bap";
       "beat-tape"; "hardcore"; "grime"]);
    ("jazz",
      ["all-jazz"; "fusion"; "big-band"; "nu-jazz"; "modern-jazz"; "swing";
       "free-jazz"; "soul-jazz"; "latin-jazz"; "vocal-jazz"; "bebop";
       "spiritual-jazz"]);
    ("kids",
      ["all-kids"; "family-music"; "educational"; "music-therapy"; "lullaby";
       "baby"]);
    ("latin",
      ["all-latin"; "brazilian"; "cumbia"; "tango"; "latin-rock"; "flamenco";
       "salsa"; "reggaeton"; "merengue"; "bolero"; "méxico-d.f."; "bachata"]);
    ("metal",
      ["all-metal"; "hardcore"; "black-metal"; "death-metal"; "thrash-metal";
       "grindcore"; "doom"; "post-hardcore"; "progressive-metal";
       "metalcore"; "sludge-metal"; "heavy-metal"; "deathcore"; "noise"]);
    ("pop",
      ["all-pop"; "indie-pop"; "synth-pop"; "power-pop"; "new-wave";
       "dream-pop"; "noise-pop"; "experimental-pop"; "electro-pop";
       "adult-contemporary"; "jangle-pop"; "j-pop"]);
    ("punk",
      ["all-punk"; "hardcore-punk"; "garage"; "pop-punk"; "punk-rock";
       "post-punk"; "post-hardcore"; "thrash"; "crust-punk"; "folk-punk";
       "emo"; "ska"; "no-wave"]);
    ("r-b-soul",
      ["all-r-b-soul"; "soul"; "r-b"; "neo-soul"; "gospel";
       "contemporary-r-b"; "motown"; "urban"]);
    ("reggae",
      ["all-reggae"; "dub"; "ska"; "roots"; "dancehall"; "rocksteady";
       "ragga"; "lovers-rock"]);
    ("rock",
      ["all-rock"; "indie"; "prog-rock"; "post-rock"; "rock-roll";
       "psychedelic-rock"; "hard-rock"; "garage-rock"; "surf-rock";
       "instrumental"; "math-rock"; "rockabilly"]);
    ("soundtrack",
      ["all-soundtrack"; "film-music"; "video-game-music"]);
    ("spoken-word",
      ["all-spoken-word"; "poetry"; "inspirational"; "storytelling";
       "self-help"]);
    ("world",
      ["all-world"; "latin"; "roots"; "african"; "tropical"; "tribal";
       "brazilian"; "celtic"; "world-fusion"; "cumbia"; "gypsy"; "new-age";
       "balkan"; "reggaeton"])
  ].

(** [allGenres[g]]: the nil slice for a key that is absent. *)
Definition allGenres_at (g : string) : list string :=
  default [] (allGenres !! g).

Module sort.
(** [sort.Strings]: the strings in increasing order, the order of Go
    strings being byte-wise lexicographic ([String.le]).  That order is
    total and antisymmetric, so every sorting algorithm gives the same
    slice; merge sort stands for the library's. *)
Definition Strings (l : list string) : list string :=
  merge_sort String.le l.
End sort.

(** ** [printGenres] and [main] *)

(** A [for ... range] loop whose body only acts on the world. *)
Fixpoint for_range {A} (l : list A) (body : A → M unit) : M unit :=
  match l with
  | [] => ret tt
  | x :: l' => body x ;;; for_range l' body
  end.

(** [printGenres] prints genres (followed by indented subgenres) to [w].
    [order] is the order in which [range allGenres] visits the keys, which Go
    leaves unspecified. *)
Definition printGenres (order : list string) (w : Writer) : M unit :=
  let genres := fold_left (λ genres g, genres ++ [g]) order [] in
  let genres := sort.Strings genres in
  for_range genres (λ g,
    fmt.Fprintln w [OStr g] ;;;
    for_range (allGenres_at g) (λ s, fmt.Fprintln w [OStr ("  " +:+ s)])).

(** The flag values after [flag.Parse]. *)
Record Flags := {
  genre : string;        (* -genre, default "all" *)
  listGenres : bool;     (* -list-genres, default false *)
  ranking : string;      (* -ranking, default "top" *)
  format : string        (* -format, default "all" *)
}.

(** Lines 44-52 of [main]: fetch, then report the error or print the URLs.
    The result is the exit code of the process. *)
Definition main_fetch (net : Net) (genre subgenre ranking format : string)
  : M Z :=
  r <~ getURLs net genre subgenre ranking format ;;
  match r.2 with
  | Some err => fmt.Fprintln Stderr [OStr "Failed getting URLs:"; OErr err] ;;; ret 1%Z
  | None => for_range r.1 (λ u, fmt.Fprintln Stdout [OStr u]) ;;; ret 0%Z
  end.

(** [main] from line 29 on; the result is the exit code of the process
    ([os.Exit] ends it at once, returning from [main] ends it with 0). *)
Definition main (net : Net) (order : list string) (flags : Flags) : M Z :=
  if listGenres flags then
    printGenres order Stdout ;;; ret 0%Z
  else
    let parts := strings.Split (genre flags) "/" in
    if decide (length parts = 2) then
      main_fetch net (nth 0 parts "") (nth 1 parts "") (ranking flags) (format flags)
    else if decide (length parts ≠ 1) then
      fmt.Fprintln Stderr [OStr "-genre value should contain genre or genre/subgenre"] ;;;
      ret 2%Z
    else
      main_fetch net (genre flags) "" (ranking flags) (format flags).

(** * The vocabulary of the properties *)

(** ** Album pages *)

(** The album page of an item, built from its URL hints. *)
Definition album_url (uh : URLHints) : string :=
  "https://" +:+ Subdomain uh +:+ ".bandcamp.com/album/" +:+ Slug uh.

Definition is_album (uh : URLHints) : Prop := ItemType uh = "a".

#[global] Instance is_album_dec uh : Decision (is_album uh).
Proof. unfold is_album. apply _. Defined.

(** What the specification asks of the loop: keep the albums, in order, and
    map each to its page. *)
Definition album_urls (items : list Item) : list string :=
  album_url <$> filter is_album (URLHints_ <$> items).

(** ** The worlds [getURLs] leaves behind *)

Definition with_request (u : string) (w : World) : World :=
  {| requests := requests w ++ [u]; next_body := next_body w;
     open_bodies := open_bodies w; stdout := stdout w; stderr := stderr w |}.

(** The world after a GET that succeeded and whose body was closed again. *)
Definition after_fetch (u : string) (w : World) : World :=
  {| requests := requests w ++ [u]; next_body := S (next_body w);
     open_bodies := ({[next_body w]} ∪ open_bodies w) ∖ {[next_body w]};
     stdout := stdout w; stderr := stderr w |}.

(** ** The JSON shape [data] expects *)

(** A value fits a target when decoding it into the target raises no type
    error: [null] fits everything, a string fits a string field, an object
    fits a struct when each member that selects a field fits that field, an
    array fits the slice when each element fits an item. *)
Module shape.
Import json.

Definition fits_string (v : value) : bool :=
  match v with
  | Null | Str _ => true
  | _ => false
  end.

Definition fits_struct (member_fits : string → value → bool) (v : value)
  : bool :=
  match v with
  | Null => true
  | Object members => forallb (λ kv, member_fits kv.1 kv.2) members
  | _ => false
  end.

Definition URLHints_member_fits (key : string) (v : value) : bool :=
  if matches "subdomain" key || matches "slug" key || matches "item_type" key
  then fits_string v else true.

Definition fits_URLHints := fits_struct URLHints_member_fits.

Definition Item_member_fits (key : string) (v : value) : bool :=
  if matches "primary_text" key || matches "secondary_text" key
  then fits_string v
  else if matches "url_hints" key then fits_URLHints v
  else true.

Definition fits_Item := fits_struct Item_member_fits.

Definition fits_Items (v : value) : bool :=
  match v with
  | Null => true
  | Array vs => forallb fits_Item vs
  | _ => false
  end.

Definition Data_member_fits (key : string) (v : value) : bool :=
  if matches "items" key then fits_Items v else true.

Definition fits_Data := fits_struct Data_member_fits.

(** A body is decodable when its first JSON value is well-formed and fits
    [data]. *)
Definition decodable (body : stream) : bool :=
  match body with
  | Invalid _ => false
  | Valid v => fits_Data v
  end.

(** A decoder agrees with a shape when it leaves the saved error alone on
    the values that fit and has an error saved after any other value. *)
Definition agrees {T : Type}
    (dec : value → T → option error → T * option error)
    (fits : value → bool) : Prop :=
  ∀ v cur saved,
    (is_Some saved → (dec v cur saved).2 = saved)
    ∧ (fits v = true → (dec v cur saved).2 = saved)
    ∧ (fits v = false → is_Some (dec v cur saved).2).
End shape.

(** ** Items without an item type *)

(** A URL hints object without a member for [item_type], and an item all of
    whose [url_hints] members are such objects (none at all among them). *)
Definition hints_lack_item_type (v : json.value) : bool :=
  match v with
  | json.Object members =>
      forallb (λ kv, negb (json.matches "item_type" kv.1)) members
  | _ => false
  end.

Definition lacks_item_type (v : json.value) : bool :=
  match v with
  | json.Object members =>
      forallb (λ kv, negb (json.matches "url_hints" kv.1)
                     || hints_lack_item_type kv.2) members
  | _ => false
  end.

(** The item a fresh slice element becomes when a value is decoded into it. *)
Definition decoded_item (v : json.value) : Item :=
  (json.decode_Item v zero_Item None).1.

(** What a decoder stores does not depend on the errors saved before. *)
Definition stores_alike {T : Type}
    (dec : json.value → T → option json.error → T * option json.error) : Prop :=
  ∀ v cur saved1 saved2, (dec v cur saved1).1 = (dec v cur saved2).1.

(** ** Reading a URL's query string *)

(** The text behind the first [c] (empty when there is none) and the text
    before it (everything when there is none). *)
Fixpoint after_first (c : ascii) (s : string) : string :=
  match s with
  | EmptyString => EmptyString
  | String a rest => if decide (a = c) then rest else after_first c rest
  end.

Fixpoint before_first (c : ascii) (s : string) : string :=
  match s with
  | EmptyString => EmptyString
  | String a rest =>
      if decide (a = c) then EmptyString else String a (before_first c rest)
  end.

(** The name of a [name=value] piece of a query string. *)
Definition param_name (piece : string) : string := before_first "=" piece.

(** The names of the pieces of a URL's text behind its first ["?"], the
    pieces being separated by ["&"]. *)
Definition param_names (u : string) : list string :=
  param_name <$> strings.Split (after_first "?" u) "&".

(** How [net/url] reads a URL, as the HTTP client does before it sends the
    request. *)
Module url.
(** [stringContainsCTLByte] *)
Definition isCTL (c : ascii) : bool :=
  let n := nat_of_ascii c in (n <? 32)%nat || (n =? 127)%nat.

Fixpoint stringContainsCTLByte (s : string) : bool :=
  match s with
  | EmptyString => false
  | String c rest => isCTL c || stringContainsCTLByte rest
  end.

Definition ishex (c : ascii) : bool :=
  let n := nat_of_ascii c in
  ((48 <=? n)%nat && (n <=? 57)%nat)
  || ((97 <=? n)%nat && (n <=? 102)%nat)
  || ((65 <=? n)%nat && (n <=? 70)%nat).

Definition unhex (c : ascii) : nat :=
  let n := nat_of_ascii c in
  if ((48 <=? n)%nat && (n <=? 57)%nat) then n - 48
  else if ((97 <=? n)%nat && (n <=? 102)%nat) then n - 97 + 10
  else if ((65 <=? n)%nat && (n <=? 70)%nat) then n - 65 + 10
  else 0.

(** [unescape]: every ["%"] must be followed by two hexadecimal digits and
    stands for that byte; in a query component ([plus]) a ["+"] stands for a
    space.  [None] is the escape error. *)
Fixpoint unescape (plus : bool) (s : string) : option string :=
  match s with
  | EmptyString => Some EmptyString
  | String c rest =>
      if decide (c = "%"%char) then
        match rest with
        | String a (String b rest2) =>
            if ishex a && ishex b
            then String (ascii_of_nat (16 * unhex a + unhex b))
                   <$> unescape plus rest2
            else None
        | _ => None
        end
      else if plus && bool_decide (c = "+"%char)
      then String " " <$> unescape plus rest
      else String c <$> unescape plus rest
  end.

(** [Parse(u).RawQuery], for a URL whose scheme, host and path are well
    formed, as those of every [request_url] are: the fragment is cut off at
    the first ["#"]; a control byte before it, or a fragment that does not
    unescape, makes [Parse] fail ([None]); the raw query is what follows the
    first ["?"] of the rest. *)
Definition RawQuery (u : string) : option string :=
  let front := before_first "#" u in
  if stringContainsCTLByte front then None
  else match unescape false (after_first "#" u) with
       | None => None
       | Some _ => Some (after_first "?" front)
       end.

(** The key of one piece of a query, as [ParseQuery] takes it: a piece with
    a [";"], an empty piece, and a piece whose key or value does not unescape
    are skipped. *)
Definition piece_key (piece : string) : option string :=
  if bool_decide (strings.Count piece ";" ≠ 0) then None
  else if bool_decide (piece = "") then None
  else match unescape true (before_first "=" piece),
             unescape true (after_first "=" piece) with
       | Some key, Some _ => Some key
       | _, _ => None
       end.

(** The keys of [ParseQuery(query)], in the order of the pieces. *)
Definition query_keys (query : string) : list string :=
  omap piece_key (strings.Split query "&").
End url.

(** Does the URL, read as [net/url] reads it, have a query parameter of that
    name? *)
Definition has_param (name u : string) : bool :=
  match url.RawQuery u with
  | Some query => bool_decide (name ∈ url.query_keys query)
  | None => false
  end.

(** ** Output *)

(** The world after some more calls of [fmt.Fprintln] on a stream. *)
Definition with_output (wr : Writer) (lines : list (list operand)) (w : World)
  : World :=
  match wr with
  | Stdout => {| requests := requests w; next_body := next_body w;
                 open_bodies := open_bodies w;
                 stdout := stdout w ++ lines; stderr := stderr w |}
  | Stderr => {| requests := requests w; next_body := next_body w;
                 open_bodies := open_bodies w;
                 stdout := stdout w; stderr := stderr w ++ lines |}
  end.

(** The lines [printGenres] prints for one genre. *)
Definition genre_block (g : string) : list (list operand) :=
  [OStr g] :: ((λ s, [OStr ("  " +:+ s)]) <$> allGenres_at g).

(** The genres of the table, in the order of Go strings. *)
Definition sorted_genres : list string :=
  ["acoustic"; "alternative"; "ambient"; "blues"; "classical"; "comedy";
   "country"; "devotional"; "electronic"; "experimental"; "folk"; "funk";
   "hip-hop-rap"; "jazz"; "kids"; "latin"; "metal"; "pop"; "punk";
   "r-b-soul"; "reggae"; "rock"; "soundtrack"; "spoken-word"; "world"].

(** The keys of the table, in the order the map happens to hold them. *)
Definition genre_keys : list string := (map_to_list allGenres).*1.

Definition usage_message : string :=
  "-genre value should contain genre or genre/subgenre".

(** ** Sample inputs *)

Module Samples.
Definition hints (ty sub slug : string) : json.value :=
  json.Object [("subdomain", json.Str sub); ("slug", json.Str slug);
               ("item_type", json.Str ty)].

Definition entry (album artist ty sub slug : string) : json.value :=
  json.Object [("primary_text", json.Str album);
               ("secondary_text", json.Str artist);
               ("url_hints", hints ty sub slug)].

(** A response with two albums and a track between them. *)
Definition three_items : json.stream :=
  json.Valid (json.Object [("items", json.Array [
    entry "Bar" "Foo" "a" "foo" "bar";
    entry "Y" "X" "t" "x" "y";
    entry "Qux" "Baz" "a" "baz" "qux"])]).

(** The same response with other titles and artists. *)
Definition three_items_retitled : json.stream :=
  json.Valid (json.Object [("items", json.Array [
    entry "First" "" "a" "foo" "bar";
    entry "" "Second" "t" "x" "y";
    entry "Third" "Third" "a" "baz" "qux"])]).

(** An album, an item without [url_hints] and an item whose [url_hints]
    has no [item_type]. *)
Definition untyped_items : list json.value :=
  [entry "Bar" "Foo" "a" "foo" "bar";
   json.Object [("primary_text", json.Str "Y")];
   json.Object [("url_hints", json.Object [("subdomain", json.Str "baz");
                                           ("slug", json.Str "qux")])]].

Definition no_items : json.stream :=
  json.Valid (json.Object [("items", json.Array [])]).

Definition serves (body : json.stream) : Net := λ _, inr body.
Definition refuses : Net := λ _, inl (NetError "dial tcp: connection refused").

Definition item (album artist ty sub slug : string) : Item :=
  {| PrimaryText := album; SecondaryText := artist;
     URLHints_ := {| Subdomain := sub; Slug := slug; ItemType := ty |} |}.
End Samples.

(** * Lemmas *)

(** ** Two evaluations *)

Example request_url_ex1 :
  request_url "rock" "" "top" "all"
  = "https://bandcamp.com/api/discover/3/get_web?g=rock&s=top&f=all&p=0&gn=0&w=0".
Proof. reflexivity. Qed.

Example split_ex1 : strings.Split "a/b/c" "/" = ["a"; "b"; "c"]%string.
Proof. reflexivity. Qed.

(** ** The filter and map pass of [getURLs] *)

Lemma getURLs_step_album urls item :
  is_album (URLHints_ item) →
  getURLs_step urls item = urls ++ [album_url (URLHints_ item)].
Proof.
  unfold getURLs_step, is_album. intros Ha.
  destruct (decide (ItemType (URLHints_ item) ≠ "a")) as [Hne|_]; [by destruct Hne|done].
Qed.

Lemma getURLs_step_other urls item :
  ¬ is_album (URLHints_ item) → getURLs_step urls item = urls.
Proof.
  unfold getURLs_step, is_album. intros Hn.
  destruct (decide (ItemType (URLHints_ item) ≠ "a")); [done|].
  destruct Hn. by apply dec_stable.
Qed.

Lemma getURLs_loop_from items urls :
  fold_left getURLs_step items urls = urls ++ album_urls items.
Proof.
  unfold album_urls. revert urls.
  induction items as [|item items IH]; intros urls; simpl.
  - by rewrite app_nil_r.
  - rewrite IH. rewrite filter_cons.
    destruct (decide (is_album (URLHints_ item))) as [Ha|Hn].
    + rewrite (getURLs_step_album _ _ Ha). by rewrite <- app_assoc.
    + by rewrite (getURLs_step_other _ _ Hn).
Qed.

Lemma getURLs_loop_spec items : getURLs_loop items = album_urls items.
Proof. unfold getURLs_loop. by rewrite getURLs_loop_from. Qed.

(** ** What [getURLs] does on each of its three paths *)

Lemma getURLs_transport net genre subgenre ranking format w err :
  net (request_url genre subgenre ranking format) = inl err →
  getURLs net genre subgenre ranking format w
  = (([], Some (Errorf (request_url genre subgenre ranking format +:+ ": "
                        +:+ net_Error err))),
     with_request (request_url genre subgenre ranking format) w).
Proof.
  intros Hnet. unfold getURLs, bind, http.Get. simpl. by rewrite Hnet.
Qed.

Lemma getURLs_decode_failed net genre subgenre ranking format w body e :
  net (request_url genre subgenre ranking format) = inr body →
  (json.Decode body).2 = Some e →
  getURLs net genre subgenre ranking format w
  = (([], Some (DecodeErr e)),
     after_fetch (request_url genre subgenre ranking format) w).
Proof.
  intros Hnet He. unfold getURLs, bind, http.Get. simpl. rewrite Hnet. simpl.
  unfold defer, bind. simpl. by rewrite He.
Qed.

Lemma getURLs_decoded net genre subgenre ranking format w body :
  net (request_url genre subgenre ranking format) = inr body →
  (json.Decode body).2 = None →
  getURLs net genre subgenre ranking format w
  = ((getURLs_loop (elems (Items (json.Decode body).1)), None),
     after_fetch (request_url genre subgenre ranking format) w).
Proof.
  intros Hnet He. unfold getURLs, bind, http.Get. simpl. rewrite Hnet. simpl.
  unfold defer, bind. simpl. by rewrite He.
Qed.

(** ** The decoder fails exactly on the values that do not fit *)

Section shape_facts.
Import json shape.

Lemma saveError_is_Some e saved : is_Some (saveError e saved).
Proof. destruct saved; simpl; eauto. Qed.

Lemma saveError_saved e saved : is_Some saved → saveError e saved = saved.
Proof. by intros [e' ->]. Qed.

#[local] Hint Resolve saveError_is_Some saveError_saved : core.

Lemma decode_string_agrees : agrees decode_string fits_string.
Proof.
  intros v cur saved. destruct v; simpl; repeat split; intros; auto; done.
Qed.

(** Member-wise agreement lifts to the members of an object ... *)
Lemma decode_members_agrees {T : Type}
    (member : string → value → T → option error → T * option error)
    (member_fits : string → value → bool) members st :
  (∀ key, agrees (member key) (member_fits key)) →
  let r := fold_left (λ st kv, member kv.1 kv.2 st.1 st.2) members st in
  (is_Some st.2 → r.2 = st.2)
  ∧ (forallb (λ kv, member_fits kv.1 kv.2) members = true → r.2 = st.2)
  ∧ (forallb (λ kv, member_fits kv.1 kv.2) members = false → is_Some r.2).
Proof.
  intros Hm. revert st.
  induction members as [|[key x] members IH]; intros st; simpl.
  { repeat split; intros; done. }
  destruct (Hm key x st.1 st.2) as (Hkeep & Hfit & Hbad).
  destruct (IH (member key x st.1 st.2)) as (IHkeep & IHfit & IHbad).
  repeat split.
  - intros Hs. rewrite IHkeep; rewrite (Hkeep Hs); done.
  - intros [Hx Hrest]%andb_prop. rewrite (IHfit Hrest). by apply Hfit.
  - intros [Hx|Hrest]%andb_false_iff.
    + rewrite IHkeep; by apply Hbad.
    + by apply IHbad.
Qed.

(** ... and so to the struct. *)
Lemma decode_struct_agrees {T : Type}
    (member : string → value → T → option error → T * option error)
    (member_fits : string → value → bool) :
  (∀ key, agrees (member key) (member_fits key)) →
  agrees (decode_struct member) (fits_struct member_fits).
Proof.
  intros Hm v cur saved.
  destruct v as [| | | |vs|members]; simpl;
    try (repeat split; intros; auto; done).
  apply (decode_members_agrees member member_fits members (cur, saved) Hm).
Qed.

Lemma URLHints_member_agrees key :
  agrees (URLHints_member key) (URLHints_member_fits key).
Proof.
  intros v cur saved. unfold URLHints_member, URLHints_member_fits.
  destruct (decode_string_agrees v (Subdomain cur) saved) as (?&?&?).
  destruct (decode_string_agrees v (Slug cur) saved) as (?&?&?).
  destruct (decode_string_agrees v (ItemType cur) saved) as (?&?&?).
  destruct (matches "subdomain" key), (matches "slug" key),
    (matches "item_type" key); simpl; repeat split; auto; done.
Qed.

Lemma decode_URLHints_agrees : agrees decode_URLHints fits_URLHints.
Proof. apply decode_struct_agrees, URLHints_member_agrees. Qed.

Lemma Item_member_agrees key :
  agrees (Item_member key) (Item_member_fits key).
Proof.
  intros v cur saved. unfold Item_member, Item_member_fits.
  destruct (decode_string_agrees v (PrimaryText cur) saved) as (?&?&?).
  destruct (decode_string_agrees v (SecondaryText cur) saved) as (?&?&?).
  destruct (decode_URLHints_agrees v (URLHints_ cur) saved) as (?&?&?).
  destruct (matches "primary_text" key), (matches "secondary_text" key),
    (matches "url_hints" key); simpl; repeat split; auto; done.
Qed.

Lemma decode_Item_agrees : agrees decode_Item fits_Item.
Proof. apply decode_struct_agrees, Item_member_agrees. Qed.

Lemma decode_elements_error vs arr saved :
  (is_Some saved → (decode_elements vs arr saved).2 = saved)
  ∧ (forallb fits_Item vs = true → (decode_elements vs arr saved).2 = saved)
  ∧ (forallb fits_Item vs = false → is_Some (decode_elements vs arr saved).2).
Proof.
  revert arr saved. induction vs as [|v vs IH]; intros arr saved; simpl.
  { repeat split; intros; done. }
  destruct (decode_Item_agrees v (hd zero_Item arr) saved) as (Hkeep & Hfit & Hbad).
  destruct (IH (tl arr) (decode_Item v (hd zero_Item arr) saved).2)
    as (IHkeep & IHfit & IHbad).
  repeat split.
  - intros Hs. rewrite IHkeep; rewrite (Hkeep Hs); done.
  - intros [Hx Hrest]%andb_prop. rewrite (IHfit Hrest). by apply Hfit.
  - intros [Hx|Hrest]%andb_false_iff.
    + rewrite IHkeep; by apply Hbad.
    + by apply IHbad.
Qed.

Lemma decode_Items_agrees : agrees decode_Items fits_Items.
Proof.
  intros v cur saved.
  destruct v as [| | | |vs|members]; simpl;
    try (repeat split; intros; auto; done).
  destruct vs as [|v vs]; [repeat split; intros; done|].
  apply (decode_elements_error (v :: vs)).
Qed.

Lemma Data_member_agrees key :
  agrees (Data_member key) (Data_member_fits key).
Proof.
  intros v cur saved. unfold Data_member, Data_member_fits.
  destruct (decode_Items_agrees v (Items cur) saved) as (?&?&?).
  destruct (matches "items" key); simpl; repeat split; auto; done.
Qed.

Lemma decode_Data_agrees : agrees decode_Data fits_Data.
Proof. apply decode_struct_agrees, Data_member_agrees. Qed.

(** [Decode] fails exactly on the bodies that are not decodable. *)
Lemma Decode_ok body : decodable body = true → (Decode body).2 = None.
Proof.
  destruct body as [v|e]; simpl; [|done].
  apply decode_Data_agrees.
Qed.

Lemma Decode_fails body : decodable body = false → is_Some (Decode body).2.
Proof.
  destruct body as [v|e]; simpl; [|eauto].
  apply decode_Data_agrees.
Qed.
End shape_facts.

(** ** Decoding items without an item type *)

Section absent.
Import json.

Lemma URLHints_member_keeps_type key v cur saved :
  matches "item_type" key = false →
  ItemType (URLHints_member key v cur saved).1 = ItemType cur.
Proof.
  intros Hkey. unfold URLHints_member. rewrite Hkey.
  destruct (matches "subdomain" key), (matches "slug" key); done.
Qed.

Lemma decode_URLHints_keeps_type v cur saved :
  hints_lack_item_type v = true →
  ItemType (decode_URLHints v cur saved).1 = ItemType cur.
Proof.
  destruct v as [| | | |vs|members]; try done. simpl.
  change cur with (cur, saved).1 at 2. generalize (cur, saved).
  induction members as [|[key x] members IH]; intros st; simpl; [done|].
  intros [Hkey Hrest]%andb_prop. rewrite (IH _ Hrest).
  apply URLHints_member_keeps_type. by destruct (matches "item_type" key).
Qed.

Lemma Item_member_keeps_type key v cur saved :
  negb (matches "url_hints" key) || hints_lack_item_type v = true →
  ItemType (URLHints_ (Item_member key v cur saved).1)
  = ItemType (URLHints_ cur).
Proof.
  intros Hkey. unfold Item_member.
  destruct (matches "primary_text" key); [done|].
  destruct (matches "secondary_text" key); [done|].
  destruct (matches "url_hints" key); [|done]. simpl in *.
  by apply decode_URLHints_keeps_type.
Qed.

Lemma decode_Item_keeps_type v cur saved :
  lacks_item_type v = true →
  ItemType (URLHints_ (decode_Item v cur saved).1)
  = ItemType (URLHints_ cur).
Proof.
  destruct v as [| | | |vs|members]; try done. simpl.
  change cur with (cur, saved).1 at 2. generalize (cur, saved).
  induction members as [|[key x] members IH]; intros st; simpl; [done|].
  intros [Hkey Hrest]%andb_prop. rewrite (IH _ Hrest).
  by apply Item_member_keeps_type.
Qed.

Lemma decode_string_stores_alike : stores_alike decode_string.
Proof. intros v cur saved1 saved2. by destruct v. Qed.

Lemma decode_struct_stores_alike {T : Type}
    (member : string → value → T → option error → T * option error) :
  (∀ key, stores_alike (member key)) → stores_alike (decode_struct member).
Proof.
  intros Hm v cur saved1 saved2.
  destruct v as [| | | |vs|members]; try done. simpl.
  assert (Hst : (cur, saved1).1 = (cur, saved2).1) by done.
  revert Hst. generalize (cur, saved1) (cur, saved2).
  induction members as [|[key x] members IH]; intros st1 st2 Hst; simpl;
    [done|].
  apply IH. rewrite Hst. apply Hm.
Qed.

Lemma decode_URLHints_stores_alike : stores_alike decode_URLHints.
Proof.
  apply decode_struct_stores_alike. intros key v cur saved1 saved2.
  unfold URLHints_member.
  destruct (matches "subdomain" key), (matches "slug" key),
    (matches "item_type" key); simpl; try done;
    by rewrite (decode_string_stores_alike v _ saved1 saved2).
Qed.

Lemma decode_Item_stores_alike : stores_alike decode_Item.
Proof.
  apply decode_struct_stores_alike. intros key v cur saved1 saved2.
  unfold Item_member.
  destruct (matches "primary_text" key), (matches "secondary_text" key),
    (matches "url_hints" key); simpl; try done;
    try (by rewrite (decode_string_stores_alike v _ saved1 saved2));
    by rewrite (decode_URLHints_stores_alike v _ saved1 saved2).
Qed.

(** Into a fresh backing array, each element is decoded on its own. *)
Lemma decode_elements_fresh vs saved :
  (decode_elements vs [] saved).1 = decoded_item <$> vs.
Proof.
  revert saved. induction vs as [|v vs IH]; intros saved; simpl; [done|].
  rewrite IH. f_equal. apply decode_Item_stores_alike.
Qed.

Lemma Data_members_skipped members cur saved :
  Forall (λ kv, matches "items" kv.1 = false) members →
  fold_left (λ st kv, Data_member kv.1 kv.2 st.1 st.2) members (cur, saved)
  = (cur, saved).
Proof.
  induction 1 as [|[key x] members Hkey _ IH]; simpl; [done|].
  unfold Data_member at 2. simpl in Hkey. by rewrite Hkey.
Qed.

(** A response whose only [items] member is an array decodes to the items
    of that array, each decoded on its own. *)
Lemma Decode_items pre key vs post :
  matches "items" key = true →
  Forall (λ kv, matches "items" kv.1 = false) (pre ++ post) →
  elems (Items (Decode (Valid (Object (pre ++ (key, Array vs) :: post)))).1)
  = decoded_item <$> vs.
Proof.
  intros Hkey [Hpre Hpost]%Forall_app. unfold Decode, decode_Data. simpl.
  rewrite fold_left_app, (Data_members_skipped pre _ _ Hpre). simpl.
  unfold Data_member at 2. rewrite Hkey. cbv zeta.
  rewrite (Data_members_skipped post _ _ Hpost). simpl.
  destruct vs as [|v vs]; [done|].
  unfold elems, decode_Items. cbn [fst snd Items backing slen].
  rewrite decode_elements_fresh.
  apply take_ge. by rewrite length_fmap.
Qed.

(** Items without an item type add nothing to the URLs. *)
Lemma album_urls_without_type vs :
  album_urls (decoded_item <$> vs)
  = album_urls (decoded_item <$> filter (λ v, lacks_item_type v = false) vs).
Proof.
  unfold album_urls. induction vs as [|v vs IH]; [done|].
  rewrite filter_cons.
  destruct (decide (lacks_item_type v = false)) as [Hv|Hv].
  - rewrite !fmap_cons, !filter_cons.
    destruct (decide (is_album (URLHints_ (decoded_item v))));
      rewrite ?fmap_cons; by rewrite IH.
  - apply not_false_is_true in Hv.
    rewrite !fmap_cons, filter_cons.
    destruct (decide (is_album (URLHints_ (decoded_item v)))) as [Ha|_];
      [|done].
    unfold is_album, decoded_item in Ha.
    by rewrite (decode_Item_keeps_type v zero_Item None Hv) in Ha.
Qed.
End absent.

(** ** The query string of the request URL *)

(** Let [simpl] compute appends with a known head. *)
#[local] Arguments String.append !_ _ / : simpl nomatch.

Lemma Split_nonempty s sep : strings.Split s sep ≠ [].
Proof.
  destruct s as [|c s]; simpl; [done|].
  destruct (decide (c = sep)); [done|].
  by destruct (strings.Split s sep).
Qed.

Lemma Split_cons_other c s sep :
  c ≠ sep →
  strings.Split (String c s) sep
  = String c (hd "" (strings.Split s sep)) :: tail (strings.Split s sep).
Proof.
  intros Hc. simpl. destruct (decide (c = sep)); [done|].
  pose proof (Split_nonempty s sep).
  by destruct (strings.Split s sep).
Qed.

Lemma Split_app s1 s2 sep :
  strings.Split (s1 +:+ String sep s2) sep
  = strings.Split s1 sep ++ strings.Split s2 sep.
Proof.
  induction s1 as [|c s1 IH]; simpl.
  - by destruct (decide (sep = sep)).
  - rewrite IH. destruct (decide (c = sep)); [done|].
    pose proof (Split_nonempty s1 sep).
    by destruct (strings.Split s1 sep).
Qed.

Lemma Split_length s sep :
  length (strings.Split s sep) = S (strings.Count s sep).
Proof.
  induction s as [|c s IH]; simpl; [done|].
  destruct (decide (c = sep)); simpl; [by rewrite IH|].
  pose proof (Split_nonempty s sep).
  destruct (strings.Split s sep); [done|]. simpl in *. done.
Qed.

Lemma append_assoc (s1 s2 s3 : string) :
  (s1 +:+ s2) +:+ s3 = s1 +:+ s2 +:+ s3.
Proof. induction s1 as [|c s1 IH]; simpl; congruence. Qed.

Lemma append_nil_r (s : string) : s +:+ "" = s.
Proof. induction s as [|c s IH]; simpl; congruence. Qed.

(** The query string that [request_url] builds, piece by piece. *)
Lemma request_url_query genre subgenre ranking format :
  after_first "?" (request_url genre subgenre ranking format)
  = ("g=" +:+ genre) +:+ String "&" (("s=" +:+ ranking) +:+ String "&"
      (("f=" +:+ format) +:+ String "&" ("p=0" +:+ String "&"
        ("gn=0" +:+ String "&" ("w=0" +:+
          (if decide (subgenre ≠ "") then String "&" ("t=" +:+ subgenre)
           else "")))))).
Proof.
  unfold request_url.
  destruct (decide (subgenre ≠ "")); rewrite !append_assoc; simpl;
    rewrite ?append_assoc; simpl; rewrite ?append_assoc; reflexivity.
Qed.

Lemma request_url_pieces genre subgenre ranking format :
  strings.Split (after_first "?" (request_url genre subgenre ranking format)) "&"
  = strings.Split ("g=" +:+ genre) "&"
    ++ strings.Split ("s=" +:+ ranking) "&"
    ++ strings.Split ("f=" +:+ format) "&"
    ++ ["p=0"; "gn=0"; "w=0"]
    ++ (if decide (subgenre ≠ "") then strings.Split ("t=" +:+ subgenre) "&"
        else []).
Proof.
  rewrite request_url_query.
  destruct (decide (subgenre ≠ "")); rewrite !Split_app; reflexivity.
Qed.

(** The URL as one concatenation. *)
Lemma request_url_concat genre subgenre ranking format :
  request_url genre subgenre ranking format
  = "https://bandcamp.com/api/discover/3/get_web?"
    +:+ "g=" +:+ genre +:+ "&s=" +:+ ranking +:+ "&f=" +:+ format
    +:+ "&p=0&gn=0&w=0"
    +:+ (if decide (subgenre = "") then "" else "&t=" +:+ subgenre).
Proof.
  unfold request_url.
  destruct (decide (subgenre ≠ "")) as [Hsub|Hsub],
           (decide (subgenre = "")) as [Hemp|Hemp]; try done.
  by rewrite !append_assoc.
Qed.

Lemma piece_names (k : ascii) (v : string) :
  k ≠ "&"%char → k ≠ "="%char →
  param_name <$> strings.Split (String k (String "=" v)) "&"
  = String k "" :: (param_name <$> tail (strings.Split v "&")).
Proof.
  intros Hamp Heq.
  rewrite (Split_cons_other k), (Split_cons_other "="%char); [|done..].
  simpl. unfold param_name at 1. simpl.
  destruct (decide (k = "="%char)); [done|].
  by destruct (decide ("="%char = "="%char)).
Qed.

(** The names of the parameters of the URL that [request_url] builds. *)
Lemma request_url_param_names genre subgenre ranking format :
  param_names (request_url genre subgenre ranking format)
  = "g" :: (param_name <$> tail (strings.Split genre "&"))
    ++ "s" :: (param_name <$> tail (strings.Split ranking "&"))
    ++ "f" :: (param_name <$> tail (strings.Split format "&"))
    ++ ["p"; "gn"; "w"]
    ++ (if decide (subgenre ≠ "")
        then "t" :: (param_name <$> tail (strings.Split subgenre "&"))
        else []).
Proof.
  unfold param_names. rewrite request_url_pieces.
  rewrite !fmap_app.
  change ("g=" +:+ genre) with (String "g" (String "=" genre)).
  change ("s=" +:+ ranking) with (String "s" (String "=" ranking)).
  change ("f=" +:+ format) with (String "f" (String "=" format)).
  rewrite !piece_names by done.
  destruct (decide (subgenre ≠ "")); [|done].
  change ("t=" +:+ subgenre) with (String "t" (String "=" subgenre)).
  by rewrite piece_names.
Qed.

(** ** The loops that print *)

Lemma with_output_nil wr w : with_output wr [] w = w.
Proof. destruct w, wr; unfold with_output; simpl; by rewrite app_nil_r. Qed.

Lemma with_output_app wr lines1 lines2 w :
  with_output wr lines2 (with_output wr lines1 w)
  = with_output wr (lines1 ++ lines2) w.
Proof. destruct wr; unfold with_output; simpl; by rewrite app_assoc. Qed.

Lemma Fprintln_output wr ops w :
  fmt.Fprintln wr ops w = (tt, with_output wr [ops] w).
Proof. by destruct wr. Qed.

(** A loop whose body prints one line per element prints them in order. *)
Lemma for_range_output {A} (l : list A) (body : A → M unit)
    (lines : A → list (list operand)) wr w :
  (∀ x w', body x w' = (tt, with_output wr (lines x) w')) →
  for_range l body w = (tt, with_output wr (l ≫= lines) w).
Proof.
  intros Hbody. revert w. induction l as [|x l IH]; intros w; simpl.
  - unfold ret. by rewrite with_output_nil.
  - unfold bind. rewrite Hbody. simpl. rewrite IH.
    by rewrite with_output_app.
Qed.

Lemma append_loop (order : list string) acc :
  fold_left (λ genres g, genres ++ [g]) order acc = acc ++ order.
Proof.
  revert acc. induction order as [|g order IH]; intros acc; simpl.
  - by rewrite app_nil_r.
  - rewrite IH. by rewrite <- app_assoc.
Qed.

Lemma bind_singletons {A B} (f : A → B) (l : list A) :
  l ≫= (λ x, [f x]) = f <$> l.
Proof. induction l as [|x l IH]; [done|]. rewrite bind_cons, IH. done. Qed.

Lemma printGenres_output order wr w :
  printGenres order wr w
  = (tt, with_output wr (sort.Strings order ≫= genre_block) w).
Proof.
  unfold printGenres. rewrite append_loop.
  change ([] ++ order) with order.
  apply for_range_output. intros g w'.
  unfold bind. rewrite Fprintln_output. cbn [fst snd].
  rewrite (for_range_output _ _ (λ s, [[OStr ("  " +:+ s)]]) wr)
    by (intros; apply Fprintln_output).
  rewrite with_output_app. unfold genre_block.
  by rewrite (bind_singletons (λ s, [OStr ("  " +:+ s)])).
Qed.

Lemma sort_genre_keys : sort.Strings genre_keys = sorted_genres.
Proof. vm_compute. reflexivity. Qed.

(** Whatever order the keys are visited in, sorting gives the same slice. *)
Lemma sort_any_order order :
  order ≡ₚ genre_keys → sort.Strings order = sorted_genres.
Proof.
  intros Hperm. rewrite <- sort_genre_keys. unfold sort.Strings.
  apply (Sorted_unique String.le).
  - apply Sorted_merge_sort, _.
  - apply Sorted_merge_sort, _.
  - by rewrite !merge_sort_Permutation.
Qed.

Lemma sorted_genres_sorted : StronglySorted String.le sorted_genres.
Proof.
  rewrite <- sort_genre_keys. apply StronglySorted_merge_sort; apply _.
Qed.

Lemma sorted_genres_keys : sorted_genres ≡ₚ genre_keys.
Proof. rewrite <- sort_genre_keys. apply merge_sort_Permutation. Qed.

(** ** The paths of [main] *)

Lemma main_fetch_requests net genre subgenre ranking format w :
  let r := main_fetch net genre subgenre ranking format w in
  requests r.2 = requests w ++ [request_url genre subgenre ranking format]
  ∧ (r.1 = 0%Z ∨ r.1 = 1%Z)
  ∧ (stderr r.2 = stderr w
     ∨ ∃ e, stderr r.2 = stderr w ++ [[OStr "Failed getting URLs:"; OErr e]]).
Proof.
  unfold main_fetch, bind.
  destruct (net (request_url genre subgenre ranking format)) as [err|body] eqn:Hnet.
  - rewrite (getURLs_transport _ _ _ _ _ _ _ Hnet). simpl. eauto 6.
  - destruct (json.Decode body).2 as [e|] eqn:He.
    + rewrite (getURLs_decode_failed _ _ _ _ _ _ _ _ Hnet He). simpl. eauto 6.
    + rewrite (getURLs_decoded _ _ _ _ _ _ _ Hnet He). simpl.
      rewrite (for_range_output _ _ (λ u, [[OStr u]]) Stdout)
        by (intros; apply Fprintln_output).
      simpl. eauto.
Qed.

Lemma Split_no_sep s sep :
  strings.Count s sep = 0 →
  strings.Split s sep = [s] ∧ before_first sep s = s ∧ after_first sep s = "".
Proof.
  induction s as [|c s IH]; simpl; [done|].
  destruct (decide (c = sep)); [done|]. intros Hc.
  destruct (IH Hc) as (-> & -> & ->). done.
Qed.

Lemma Split_one_sep s sep :
  strings.Count s sep = 1 →
  strings.Split s sep = [before_first sep s; after_first sep s].
Proof.
  induction s as [|c s IH]; simpl; [done|].
  destruct (decide (c = sep)).
  - intros [= Hc]. by destruct (Split_no_sep s sep Hc) as (-> & _ & _).
  - intros Hc. by rewrite (IH Hc).
Qed.

(** A text is what lies before its first separator, then the separator and
    what lies behind it, if it has one. *)
Lemma cut_at_first s sep :
  s = before_first sep s
      +:+ (if decide (strings.Count s sep = 0) then ""
           else String sep (after_first sep s)).
Proof.
  induction s as [|c s IH]; simpl; [done|].
  destruct (decide (c = sep)) as [->|Hc]; simpl; [done|].
  by rewrite <- IH.
Qed.

Lemma main_usage_error net order flags w :
  listGenres flags = false →
  2 ≤ strings.Count (genre flags) "/" →
  main net order flags w
  = (2%Z, with_output Stderr [[OStr usage_message]] w).
Proof.
  intros Hlist Hcount. unfold main. rewrite Hlist.
  cbv zeta. rewrite Split_length.
  destruct (decide (S (strings.Count (genre flags) "/") = 2)); [lia|].
  destruct (decide (S (strings.Count (genre flags) "/") ≠ 1)); [|lia].
  unfold bind. by rewrite Fprintln_output.
Qed.

Lemma main_fetches net order flags w :
  listGenres flags = false →
  strings.Count (genre flags) "/" ≤ 1 →
  main net order flags w
  = main_fetch net (before_first "/" (genre flags))
      (after_first "/" (genre flags)) (ranking flags) (format flags) w.
Proof.
  intros Hlist Hcount. unfold main. rewrite Hlist.
  cbv zeta. rewrite Split_length.
  destruct (decide (strings.Count (genre flags) "/" = 1)) as [Hone|Hnone].
  - rewrite Hone. rewrite (Split_one_sep _ _ Hone).
    destruct (decide (2 = 2)); done.
  - assert (Hzero : strings.Count (genre flags) "/" = 0) by lia.
    rewrite Hzero. destruct (Split_no_sep _ _ Hzero) as (_ & -> & ->).
    destruct (decide (1 = 2)); [done|].
    destruct (decide (1 ≠ 1)); done.
Qed.

(** ** The query as [net/url] reads it *)

(** Cutting a text at its first [c] cuts its pieces: what is left are the
    first pieces, each cut at its first [c]. *)
Lemma Split_before_first (c sep : ascii) (q : string) :
  c ≠ sep →
  ∃ k, strings.Split (before_first c q) sep
       = take (S k) (before_first c <$> strings.Split q sep).
Proof.
  intros Hc. induction q as [|a q [k IH]].
  - by exists 0.
  - cbn [before_first].
    destruct (decide (a = c)) as [->|Hac].
    + exists 0. rewrite (Split_cons_other c q sep Hc). cbn.
      by destruct (decide (c = c)).
    + destruct (decide (a = sep)) as [->|Has].
      * exists (S k). cbn [strings.Split].
        destruct (decide (sep = sep)); [|done].
        rewrite IH. reflexivity.
      * exists k.
        rewrite (Split_cons_other a _ sep Has), (Split_cons_other a q sep Has).
        rewrite IH.
        pose proof (Split_nonempty q sep) as Hne.
        destruct (strings.Split q sep) as [|h t]; [done|].
        cbn. by destruct (decide (a = c)).
Qed.

Lemma piece_of_cut (c sep : ascii) (q piece : string) :
  c ≠ sep →
  piece ∈ strings.Split (before_first c q) sep →
  ∃ p, p ∈ strings.Split q sep ∧ piece = before_first c p.
Proof.
  intros Hc Hin. destruct (Split_before_first c sep q Hc) as [k Hk].
  rewrite Hk in Hin. apply elem_of_take in Hin as (i & Hi & _).
  apply list_lookup_fmap_Some in Hi as (p & -> & Hp).
  exists p. split; [|done]. by eapply list_elem_of_lookup_2.
Qed.

(** Cutting a piece at a ["#"] behind its name leaves the name alone. *)
Lemma param_name_of_cut (c : ascii) (p : string) :
  c ≠ "="%char →
  strings.Count (param_name p) c = 0 →
  param_name (before_first c p) = param_name p.
Proof.
  intros Hc. unfold param_name. induction p as [|a p IH]; [done|].
  cbn [before_first].
  destruct (decide (a = "="%char)) as [->|Ha].
  - intros _. destruct (decide ("="%char = c)) as [<-|_]; [done|].
    cbn. by destruct (decide ("="%char = "="%char)).
  - cbn [strings.Count]. destruct (decide (a = c)) as [->|Hac]; [done|].
    intros Hcount. cbn [before_first].
    destruct (decide (a = "="%char)); [done|]. by rewrite IH.
Qed.

Lemma query_key_piece query key :
  key ∈ url.query_keys query →
  ∃ piece, piece ∈ strings.Split query "&"
           ∧ url.unescape true (param_name piece) = Some key.
Proof.
  unfold url.query_keys. intros (piece & Hin & Hkey)%list_elem_of_omap.
  exists piece. split; [done|].
  unfold url.piece_key in Hkey. unfold param_name.
  destruct (bool_decide (strings.Count piece ";" ≠ 0)); [done|].
  destruct (bool_decide (piece = "")); [done|].
  destruct (url.unescape true (before_first "=" piece)) as [key'|]; [|done].
  by destruct (url.unescape true (after_first "=" piece)).
Qed.

Lemma RawQuery_request_url genre ranking format query :
  url.RawQuery (request_url genre "" ranking format) = Some query →
  query
  = before_first "#" (after_first "?" (request_url genre "" ranking format)).
Proof.
  unfold url.RawQuery.
  destruct (url.stringContainsCTLByte _); [done|].
  destruct (url.unescape false _); [|done].
  intros [= <-]. reflexivity.
Qed.

(** The pieces of the query when no value holds an ["&"] and there is no
    subgenre. *)
Lemma request_url_plain_pieces genre ranking format :
  strings.Count genre "&" = 0 →
  strings.Count ranking "&" = 0 →
  strings.Count format "&" = 0 →
  strings.Split (after_first "?" (request_url genre "" ranking format)) "&"
  = ["g=" +:+ genre; "s=" +:+ ranking; "f=" +:+ format; "p=0"; "gn=0"; "w=0"].
Proof.
  intros Hg Hr Hf. rewrite request_url_pieces.
  destruct (Split_no_sep ("g=" +:+ genre) "&" Hg) as (-> & _).
  destruct (Split_no_sep ("s=" +:+ ranking) "&" Hr) as (-> & _).
  destruct (Split_no_sep ("f=" +:+ format) "&" Hf) as (-> & _).
  reflexivity.
Qed.

(** * The properties of the specification *)

(** C1.  Whenever the GET succeeds and the body decodes, [getURLs] returns,
    without error, the album pages of exactly the items whose [ItemType] is
    ["a"], in response order, each page being ["https://" + Subdomain +
    ".bandcamp.com/album/" + Slug] with the two fields taken as they are.
    The three-item example gives the two pages of its albums, and no items
    give the empty sequence. *)
Theorem getURLs_album_urls :
  (∀ net genre subgenre ranking format w body data,
     net (request_url genre subgenre ranking format) = inr body →
     json.Decode body = (data, None) →
     (getURLs net genre subgenre ranking format w).1
     = (album_url <$> filter is_album (URLHints_ <$> elems (Items data)), None))
  ∧ (∀ uh, album_url uh
           = "https://" +:+ Subdomain uh +:+ ".bandcamp.com/album/" +:+ Slug uh)
  ∧ (∀ t1 a1 t2 a2 t3 a3,
       getURLs_loop [Samples.item t1 a1 "a" "foo" "bar";
                     Samples.item t2 a2 "t" "x" "y";
                     Samples.item t3 a3 "a" "baz" "qux"]
       = ["https://foo.bandcamp.com/album/bar";
          "https://baz.bandcamp.com/album/qux"])
  ∧ getURLs_loop [] = [].
Proof.
  split; [|split; [|split]].
  - intros net genre subgenre ranking format w body data Hnet Hdec.
    rewrite (getURLs_decoded _ _ _ _ _ _ _ Hnet); rewrite Hdec; [|done].
    simpl. by rewrite getURLs_loop_spec.
  - done.
  - done.
  - done.
Qed.

Lemma getURLs_album_urls_witness :
  json.Decode Samples.three_items
  = ({| Items := {| backing := [Samples.item "Bar" "Foo" "a" "foo" "bar";
                                Samples.item "Y" "X" "t" "x" "y";
                                Samples.item "Qux" "Baz" "a" "baz" "qux"];
                    slen := 3 |} |}, None)
  ∧ (getURLs (Samples.serves Samples.three_items) "rock" "" "top" "all"
       initial_World).1
    = (["https://foo.bandcamp.com/album/bar";
        "https://baz.bandcamp.com/album/qux"], None).
Proof.
  split; [reflexivity|].
  exact (proj1 getURLs_album_urls (Samples.serves Samples.three_items)
           "rock" "" "top" "all" initial_World Samples.three_items _
           eq_refl eq_refl).
Defined.

(** C2, as the code has it.  The URL is the base path followed by
    [g=<genre>], [&s=<ranking>], [&f=<format>], [&p=0&gn=0&w=0], and then
    by [&t=<subgenre>] exactly when the subgenre is not empty, all by plain
    concatenation.  So with an empty subgenre the URL contains [g=<genre>],
    [s=<ranking>] and [f=<format>], and, when the genre, the ranking and the
    format hold no ["&"], it has no parameter named [t]. *)
Theorem request_url_parameters :
  (∀ genre subgenre ranking format,
     request_url genre subgenre ranking format
     = "https://bandcamp.com/api/discover/3/get_web?"
       +:+ "g=" +:+ genre +:+ "&s=" +:+ ranking +:+ "&f=" +:+ format
       +:+ "&p=0&gn=0&w=0"
       +:+ (if decide (subgenre = "") then "" else "&t=" +:+ subgenre))
  ∧ (∀ genre ranking format,
       strings.Count genre "&" = 0 →
       strings.Count ranking "&" = 0 →
       strings.Count format "&" = 0 →
       has_param "t" (request_url genre "" ranking format) = false).
Proof.
  split; [exact request_url_concat|].
  intros genre ranking format Hg Hr Hf. unfold has_param.
  destruct (url.RawQuery (request_url genre "" ranking format))
    as [query|] eqn:Hquery; [|done].
  apply bool_decide_eq_false. intros Hkey.
  apply query_key_piece in Hkey as (piece & Hpiece & Hkey).
  rewrite (RawQuery_request_url _ _ _ _ Hquery) in Hpiece.
  apply piece_of_cut in Hpiece as (p & Hp & ->); [|done].
  rewrite (request_url_plain_pieces _ _ _ Hg Hr Hf) in Hp.
  assert (Hname : param_name p ∈ ["g"; "s"; "f"; "p"; "gn"; "w"]).
  { repeat (apply elem_of_cons in Hp as [->|Hp]; [set_solver|]).
    by apply elem_of_nil in Hp. }
  rewrite param_name_of_cut in Hkey; [|done|].
  - repeat (apply elem_of_cons in Hname as [Hn|Hname];
            [rewrite Hn in Hkey; discriminate Hkey|]).
    by apply elem_of_nil in Hname.
  - repeat (apply elem_of_cons in Hname as [Hn|Hname];
            [by rewrite Hn|]).
    by apply elem_of_nil in Hname.
Qed.

Lemma request_url_parameters_witness :
  has_param "t" (request_url "rock" "" "top" "all") = false.
Proof.
  exact (proj2 request_url_parameters "rock" "top" "all"
           eq_refl eq_refl eq_refl).
Defined.

(** C2 as stated fails: with an empty subgenre the URL can still have a
    parameter named [t], brought in by the genre. *)
Lemma request_url_t_not_excluded :
  ¬ (∀ genre ranking format,
       has_param "t" (request_url genre "" ranking format) = false).
Proof.
  intros H. specialize (H "rock&t=metal" "top" "all").
  vm_compute in H. discriminate H.
Qed.

(** C3.  With [-list-genres] off: the value ["a/b"] is fetched as genre
    ["a"] and subgenre ["b"], the value ["a"] as genre ["a"] and no
    subgenre, and a value with two or more ["/"] (["a/b/c"] among them) makes
    [main] print the usage message to standard error and end with exit code
    2, having issued no request and printed nothing to standard output. *)
Theorem main_genre_split :
  (∀ net order ranking format w,
     main net order {| genre := "a/b"; listGenres := false;
                       ranking := ranking; format := format |} w
     = main_fetch net "a" "b" ranking format w)
  ∧ (∀ net order ranking format w,
       main net order {| genre := "a"; listGenres := false;
                         ranking := ranking; format := format |} w
       = main_fetch net "a" "" ranking format w)
  ∧ strings.Split "a/b" "/" = ["a"; "b"]
  ∧ strings.Split "a" "/" = ["a"]
  ∧ strings.Split "a/b/c" "/" = ["a"; "b"; "c"]
  ∧ (∀ net order flags w,
       listGenres flags = false →
       2 ≤ strings.Count (genre flags) "/" →
       let r := main net order flags w in
       r.1 = 2%Z
       ∧ stderr r.2 = stderr w ++ [[OStr "-genre value should contain genre or genre/subgenre"]]
       ∧ requests r.2 = requests w
       ∧ open_bodies r.2 = open_bodies w
       ∧ stdout r.2 = stdout w).
Proof.
  do 5 (split; [done|]).
  intros net order flags w Hlist Hcount.
  by rewrite (main_usage_error _ _ _ _ Hlist Hcount).
Qed.

Lemma main_genre_split_witness :
  (main Samples.refuses []
     {| genre := "a/b/c"; listGenres := false; ranking := "top"; format := "all" |}
     initial_World).1 = 2%Z.
Proof.
  exact (proj1 (proj2 (proj2 (proj2 (proj2 (proj2 main_genre_split))))
                  Samples.refuses []
                  {| genre := "a/b/c"; listGenres := false;
                     ranking := "top"; format := "all" |}
                  initial_World eq_refl (le_n 2))).
Defined.

(** C4.  When the GET fails in the transport, [getURLs] returns the nil
    slice and an error whose text is the request URL, then [": "], then the
    text of the cause; the URL was requested once and nothing else happened.
    The caller [main_fetch] then prints nothing to standard output. *)
Theorem getURLs_transport_failure net genre subgenre ranking format w err :
  net (request_url genre subgenre ranking format) = inl err →
  let u := request_url genre subgenre ranking format in
  let r := getURLs net genre subgenre ranking format w in
  r.1 = ([], Some (Errorf (u +:+ ": " +:+ net_Error err)))
  ∧ requests r.2 = requests w ++ [u]
  ∧ open_bodies r.2 = open_bodies w
  ∧ stdout r.2 = stdout w ∧ stderr r.2 = stderr w
  ∧ stdout (main_fetch net genre subgenre ranking format w).2 = stdout w
  ∧ requests (main_fetch net genre subgenre ranking format w).2
    = requests w ++ [u].
Proof.
  intros Hnet u r. subst r.
  unfold main_fetch, bind.
  rewrite (getURLs_transport _ _ _ _ _ _ _ Hnet). simpl. done.
Qed.

Lemma getURLs_transport_failure_witness :
  (getURLs Samples.refuses "rock" "" "top" "all" initial_World).1
  = ([], Some (Errorf
       "https://bandcamp.com/api/discover/3/get_web?g=rock&s=top&f=all&p=0&gn=0&w=0: dial tcp: connection refused")).
Proof.
  exact (proj1 (getURLs_transport_failure Samples.refuses "rock" "" "top" "all"
                  initial_World _ eq_refl)).
Defined.

(** C5.  When the GET succeeds and the body is not decodable (its first JSON
    value is malformed or does not fit the shape of [data]), the decoder
    reports an error, and [getURLs] returns that very error together with the
    nil slice; the caller [main_fetch] prints nothing to standard output and
    ends with exit code 1. *)
Theorem getURLs_decode_error net genre subgenre ranking format w body :
  net (request_url genre subgenre ranking format) = inr body →
  shape.decodable body = false →
  ∃ e, (json.Decode body).2 = Some e
       ∧ (getURLs net genre subgenre ranking format w).1
         = ([], Some (DecodeErr e))
       ∧ (main_fetch net genre subgenre ranking format w).1 = 1%Z
       ∧ stdout (main_fetch net genre subgenre ranking format w).2 = stdout w.
Proof.
  intros Hnet Hbad.
  destruct (Decode_fails body Hbad) as [e He].
  exists e. split; [done|].
  unfold main_fetch, bind.
  rewrite (getURLs_decode_failed _ _ _ _ _ _ _ _ Hnet He). done.
Qed.

Lemma getURLs_decode_error_witness :
  ∃ e, (json.Decode (json.Valid (json.Object [("items", json.Number "5")]))).2
       = Some e
       ∧ (getURLs (Samples.serves (json.Valid (json.Object [("items", json.Number "5")])))
            "rock" "" "top" "all" initial_World).1
         = ([], Some (DecodeErr e))
       ∧ (main_fetch (Samples.serves (json.Valid (json.Object [("items", json.Number "5")])))
            "rock" "" "top" "all" initial_World).1 = 1%Z
       ∧ stdout (main_fetch (Samples.serves (json.Valid (json.Object [("items", json.Number "5")])))
            "rock" "" "top" "all" initial_World).2 = stdout initial_World.
Proof.
  exact (getURLs_decode_error
           (Samples.serves (json.Valid (json.Object [("items", json.Number "5")])))
           "rock" "" "top" "all" initial_World _ eq_refl eq_refl).
Defined.

(** C6.  With [-list-genres] on, in whatever order the keys of the table are
    visited, [main] prints to standard output, for each genre of the table
    in increasing order, the genre and then each of its subgenres behind two
    spaces; it ends with exit code 0, issues no request and leaves standard
    error alone. *)
Theorem main_list_genres net order flags w :
  listGenres flags = true →
  order ≡ₚ (map_to_list allGenres).*1 →
  let r := main net order flags w in
  r.1 = 0%Z
  ∧ stdout r.2
    = stdout w
      ++ (sorted_genres ≫= λ g,
            [OStr g] :: ((λ s, [OStr ("  " +:+ s)]) <$> allGenres_at g))
  ∧ sorted_genres ≡ₚ (map_to_list allGenres).*1
  ∧ StronglySorted String.le sorted_genres
  ∧ (∀ g, allGenres_at g = default [] (allGenres !! g))
  ∧ requests r.2 = requests w
  ∧ open_bodies r.2 = open_bodies w
  ∧ stderr r.2 = stderr w.
Proof.
  intros Hlist Horder r. subst r. unfold main. rewrite Hlist.
  unfold bind. rewrite printGenres_output.
  rewrite (sort_any_order _ Horder). cbn [fst snd ret with_output stdout
    requests open_bodies stderr].
  split; [done|]. split; [done|].
  split; [apply sorted_genres_keys|].
  split; [apply sorted_genres_sorted|]. done.
Qed.

Lemma main_list_genres_witness :
  (main Samples.refuses (reverse sorted_genres)
     {| genre := "a/b/c"; listGenres := true; ranking := "top"; format := "all" |}
     initial_World).1 = 0%Z.
Proof.
  refine (proj1 (main_list_genres Samples.refuses (reverse sorted_genres)
                   {| genre := "a/b/c"; listGenres := true;
                      ranking := "top"; format := "all" |}
                   initial_World eq_refl _)).
  apply (bool_decide_unpack _). vm_compute. exact I.
Defined.

(** C7.  When the GET succeeds, the body it handed out is open right after
    the GET and closed in the world [getURLs] returns in, whether or not the
    body decodes; no other body is touched. *)
Theorem getURLs_closes_body net genre subgenre ranking format w body :
  net (request_url genre subgenre ranking format) = inr body →
  let u := request_url genre subgenre ranking format in
  let got := http.Get net u w in
  let r := getURLs net genre subgenre ranking format w in
  got.1 = inr {| Body := next_body w; content := body |}
  ∧ next_body w ∈ open_bodies got.2
  ∧ (next_body w ∉ open_bodies r.2)
  ∧ open_bodies r.2 = open_bodies got.2 ∖ {[next_body w]}
  ∧ (∀ e, (json.Decode body).2 = Some e → r.1 = ([], Some (DecodeErr e)))
  ∧ ((json.Decode body).2 = None → (r.1).2 = None).
Proof.
  intros Hnet u got r. subst u got r.
  assert (Hgot : http.Get net (request_url genre subgenre ranking format) w
                 = (inr {| Body := next_body w; content := body |},
                    {| requests := requests w ++ [request_url genre subgenre ranking format];
                       next_body := S (next_body w);
                       open_bodies := {[next_body w]} ∪ open_bodies w;
                       stdout := stdout w; stderr := stderr w |})).
  { unfold http.Get. by rewrite Hnet. }
  rewrite Hgot. simpl.
  destruct (json.Decode body).2 as [e|] eqn:He.
  - rewrite (getURLs_decode_failed _ _ _ _ _ _ _ _ Hnet He). simpl.
    repeat split; [set_solver|set_solver| |done].
    intros e' [= <-]. done.
  - rewrite (getURLs_decoded _ _ _ _ _ _ _ Hnet He). simpl.
    repeat split; [set_solver|set_solver|done].
Qed.

Lemma getURLs_closes_body_witness :
  open_bodies (getURLs (Samples.serves (json.Invalid (json.SyntaxError "bad")))
                 "rock" "" "top" "all" initial_World).2
  = open_bodies (http.Get (Samples.serves (json.Invalid (json.SyntaxError "bad")))
                   (request_url "rock" "" "top" "all") initial_World).2
    ∖ {[next_body initial_World]}.
Proof.
  exact (proj1 (proj2 (proj2 (proj2
    (getURLs_closes_body (Samples.serves (json.Invalid (json.SyntaxError "bad")))
       "rock" "" "top" "all" initial_World _ eq_refl))))).
Defined.

(** C8, as the code has it.  Decoding an item that has no [url_hints]
    object, or whose [url_hints] objects have no [item_type], leaves the item
    type of the slice element as it was, the empty string for a fresh
    element; the loop then skips the element, and the absence raises no
    error: when the members that are present fit, no error is saved.  So for
    a response with exactly one [items] member, an array, which decodes
    without error, [getURLs] returns, without error, the URLs of the array
    with such items left out. *)
Theorem missing_item_type_excluded :
  (∀ v cur saved,
     lacks_item_type v = true →
     ItemType (URLHints_ (json.decode_Item v cur saved).1)
     = ItemType (URLHints_ cur))
  ∧ (∀ v urls,
       lacks_item_type v = true →
       ItemType (URLHints_ (decoded_item v)) = ""
       ∧ getURLs_step urls (decoded_item v) = urls)
  ∧ (∀ v cur saved,
       lacks_item_type v = true →
       shape.fits_Item v = true →
       (json.decode_Item v cur saved).2 = saved)
  ∧ (∀ net genre subgenre ranking format w pre key vs post,
       net (request_url genre subgenre ranking format)
       = inr (json.Valid (json.Object (pre ++ (key, json.Array vs) :: post))) →
       json.matches "items" key = true →
       Forall (λ kv, json.matches "items" kv.1 = false) (pre ++ post) →
       (json.Decode
          (json.Valid (json.Object (pre ++ (key, json.Array vs) :: post)))).2
       = None →
       (getURLs net genre subgenre ranking format w).1
       = (getURLs_loop
            (decoded_item <$> filter (λ v, lacks_item_type v = false) vs),
          None)).
Proof.
  split; [exact decode_Item_keeps_type|].
  split.
  { intros v urls Hv.
    assert (Hty : ItemType (URLHints_ (decoded_item v)) = "")
      by apply (decode_Item_keeps_type v zero_Item None Hv).
    split; [done|]. apply getURLs_step_other. unfold is_album.
    by rewrite Hty. }
  split.
  { intros v cur saved _ Hfit. by apply decode_Item_agrees. }
  intros net genre subgenre ranking format w pre key vs post Hnet Hkey Hrest Hdec.
  rewrite (getURLs_decoded _ _ _ _ _ _ _ Hnet Hdec).
  cbn [fst]. rewrite (Decode_items _ _ _ _ Hkey Hrest).
  by rewrite !getURLs_loop_spec, album_urls_without_type.
Qed.

Lemma missing_item_type_excluded_witness :
  lacks_item_type (json.Object [("primary_text", json.Str "Y")]) = true
  ∧ shape.fits_Item (json.Object [("primary_text", json.Str "Y")]) = true
  ∧ (getURLs (Samples.serves (json.Valid (json.Object
        ([] ++ ("items", json.Array Samples.untyped_items) :: []))))
       "rock" "" "top" "all" initial_World).1
    = (["https://foo.bandcamp.com/album/bar"], None).
Proof.
  split; [reflexivity|]. split; [reflexivity|].
  refine (proj2 (proj2 (proj2 missing_item_type_excluded))
            (Samples.serves (json.Valid (json.Object
               ([] ++ ("items", json.Array Samples.untyped_items) :: []))))
            "rock" "" "top" "all" initial_World
            [] "items" Samples.untyped_items [] eq_refl eq_refl _ eq_refl).
  constructor.
Defined.

(** C8 as stated fails: when a response has a second [items] member, the
    decoder decodes its items into the slice elements the first one wrote, and
    an item without [url_hints] keeps the item type found there. *)
Lemma missing_item_type_kept_from_earlier_array :
  ¬ (∀ members key vs i v it,
       (json.Decode (json.Valid (json.Object members))).2 = None →
       (key, json.Array vs) ∈ members →
       json.matches "items" key = true →
       vs !! i = Some v →
       lacks_item_type v = true →
       elems (Items (json.Decode (json.Valid (json.Object members))).1) !! i
       = Some it →
       ItemType (URLHints_ it) = ""
       ∧ ∀ urls, getURLs_step urls it = urls).
Proof.
  intros H.
  destruct (H [("items", json.Array [Samples.entry "Y" "X" "a" "x" "y"]);
               ("items", json.Array [json.Object []])]
              "items" [json.Object []] 0 (json.Object [])
              (Samples.item "Y" "X" "a" "x" "y")) as [Hty _];
    try reflexivity.
  - apply elem_of_cons. right. apply elem_of_cons. by left.
  - discriminate Hty.
Qed.

(** C9.  With [-list-genres] off, a [-genre] value with at most one ["/"]
    never raises the usage error: [main] goes on to fetch with the text
    before the ["/"] as genre and the text behind it as subgenre (the whole
    value and no subgenre when there is no ["/"]), whatever these texts are;
    exactly the URL built from them is requested, the exit code is 0 or 1 and
    standard error gets at most the fetch failure.  So [""] asks with an
    empty [g=], ["/b"] asks with an empty [g=] and [&t=b], and ["a/"] asks
    for genre ["a"] without any [t]. *)
Theorem main_genre_not_enforced :
  (∀ net order flags w,
     listGenres flags = false →
     strings.Count (genre flags) "/" ≤ 1 →
     let g := before_first "/" (genre flags) in
     let sub := after_first "/" (genre flags) in
     let r := main net order flags w in
     r = main_fetch net g sub (ranking flags) (format flags) w
     ∧ requests r.2
       = requests w ++ [request_url g sub (ranking flags) (format flags)]
     ∧ (r.1 = 0%Z ∨ r.1 = 1%Z)
     ∧ (stderr r.2 = stderr w
        ∨ ∃ e, stderr r.2 = stderr w ++ [[OStr "Failed getting URLs:"; OErr e]])
     ∧ genre flags
       = g +:+ (if decide (strings.Count (genre flags) "/" = 0)
                then "" else "/" +:+ sub))
  ∧ (∀ net order ranking format w,
       requests (main net order {| genre := ""; listGenres := false;
                                   ranking := ranking; format := format |} w).2
       = requests w ++ ["https://bandcamp.com/api/discover/3/get_web?g=&s="
                        +:+ ranking +:+ "&f=" +:+ format +:+ "&p=0&gn=0&w=0"])
  ∧ (∀ net order ranking format w,
       requests (main net order {| genre := "/b"; listGenres := false;
                                   ranking := ranking; format := format |} w).2
       = requests w ++ ["https://bandcamp.com/api/discover/3/get_web?g=&s="
                        +:+ ranking +:+ "&f=" +:+ format
                        +:+ "&p=0&gn=0&w=0&t=b"])
  ∧ (∀ net order ranking format w,
       requests (main net order {| genre := "a/"; listGenres := false;
                                   ranking := ranking; format := format |} w).2
       = requests w ++ ["https://bandcamp.com/api/discover/3/get_web?g=a&s="
                        +:+ ranking +:+ "&f=" +:+ format +:+ "&p=0&gn=0&w=0"]).
Proof.
  assert (Hgen : ∀ net order flags w,
     listGenres flags = false →
     strings.Count (genre flags) "/" ≤ 1 →
     let g := before_first "/" (genre flags) in
     let sub := after_first "/" (genre flags) in
     let r := main net order flags w in
     r = main_fetch net g sub (ranking flags) (format flags) w
     ∧ requests r.2
       = requests w ++ [request_url g sub (ranking flags) (format flags)]
     ∧ (r.1 = 0%Z ∨ r.1 = 1%Z)
     ∧ (stderr r.2 = stderr w
        ∨ ∃ e, stderr r.2 = stderr w ++ [[OStr "Failed getting URLs:"; OErr e]])
     ∧ genre flags
       = g +:+ (if decide (strings.Count (genre flags) "/" = 0)
                then "" else "/" +:+ sub)).
  { intros net order flags w Hlist Hcount g sub r. subst g sub r.
    rewrite (main_fetches _ _ _ _ Hlist Hcount).
    split; [done|].
    destruct (main_fetch_requests net (before_first "/" (genre flags))
                (after_first "/" (genre flags)) (ranking flags) (format flags) w)
      as (Hreq & Hcode & Herr).
    do 3 (split; [done|]).
    apply cut_at_first. }
  split; [exact Hgen|].
  repeat split; intros net order ranking format w.
  - destruct (Hgen net order {| genre := ""; listGenres := false;
                                ranking := ranking; format := format |} w
                eq_refl (le_0_n 1)) as (_ & -> & _).
    by rewrite request_url_concat.
  - destruct (Hgen net order {| genre := "/b"; listGenres := false;
                                ranking := ranking; format := format |} w
                eq_refl (le_n 1)) as (_ & -> & _).
    by rewrite request_url_concat.
  - destruct (Hgen net order {| genre := "a/"; listGenres := false;
                                ranking := ranking; format := format |} w
                eq_refl (le_n 1)) as (_ & -> & _).
    by rewrite request_url_concat.
Qed.

Lemma main_genre_not_enforced_witness :
  requests (main Samples.refuses []
              {| genre := "/b"; listGenres := false;
                 ranking := "top"; format := "all" |} initial_World).2
  = requests initial_World ++ [request_url "" "b" "top" "all"].
Proof.
  exact (proj1 (proj2 (proj1 main_genre_not_enforced Samples.refuses []
                         {| genre := "/b"; listGenres := false;
                            ranking := "top"; format := "all" |}
                         initial_World eq_refl (le_n 1)))).
Defined.

(** C10.  Two responses whose items carry the same URL hints, whatever their
    titles and artists, give the same URLs: the result of the loop, and of
    [getURLs], is a function of the URL hints alone. *)
Theorem getURLs_depends_on_url_hints :
  (∀ items1 items2,
     URLHints_ <$> items1 = URLHints_ <$> items2 →
     getURLs_loop items1 = getURLs_loop items2)
  ∧ (∀ net1 net2 genre subgenre ranking format w1 w2 body1 body2,
       net1 (request_url genre subgenre ranking format) = inr body1 →
       net2 (request_url genre subgenre ranking format) = inr body2 →
       (json.Decode body1).2 = None →
       (json.Decode body2).2 = None →
       URLHints_ <$> elems (Items (json.Decode body1).1)
       = URLHints_ <$> elems (Items (json.Decode body2).1) →
       (getURLs net1 genre subgenre ranking format w1).1
       = (getURLs net2 genre subgenre ranking format w2).1).
Proof.
  assert (Hloop : ∀ items1 items2,
             URLHints_ <$> items1 = URLHints_ <$> items2 →
             getURLs_loop items1 = getURLs_loop items2).
  { intros items1 items2 Heq. rewrite !getURLs_loop_spec.
    unfold album_urls. by rewrite Heq. }
  split; [exact Hloop|].
  intros net1 net2 genre subgenre ranking format w1 w2 body1 body2
         Hn1 Hn2 Hd1 Hd2 Heq.
  rewrite (getURLs_decoded _ _ _ _ _ _ _ Hn1 Hd1).
  rewrite (getURLs_decoded _ _ _ _ _ _ _ Hn2 Hd2). simpl.
  by rewrite (Hloop _ _ Heq).
Qed.

Lemma getURLs_depends_on_url_hints_witness :
  (getURLs (Samples.serves Samples.three_items) "rock" "" "top" "all"
     initial_World).1
  = (getURLs (Samples.serves Samples.three_items_retitled) "rock" "" "top" "all"
       initial_World).1.
Proof.
  exact (proj2 getURLs_depends_on_url_hints
           (Samples.serves Samples.three_items)
           (Samples.serves Samples.three_items_retitled)
           "rock" "" "top" "all" initial_World initial_World _ _
           eq_refl eq_refl eq_refl eq_refl eq_refl).
Defined.

(** * Further properties of [main] and [getURLs] *)

(** ** Helpers *)

Lemma main_listing net order flags w :
  listGenres flags = true →
  main net order flags w
  = (0%Z, with_output Stdout (sort.Strings order ≫= genre_block) w).
Proof.
  intros Hlist. unfold main. rewrite Hlist.
  unfold bind. by rewrite printGenres_output.
Qed.

(** The three outcomes of [main_fetch], by what the network gives. *)
Lemma main_fetch_outcome net genre subgenre ranking format w :
  let u := request_url genre subgenre ranking format in
  main_fetch net genre subgenre ranking format w
  = match net u with
    | inl err =>
        (1%Z, with_output Stderr
                [[OStr "Failed getting URLs:";
                  OErr (Errorf (u +:+ ": " +:+ net_Error err))]]
                (with_request u w))
    | inr body =>
        match (json.Decode body).2 with
        | Some e =>
            (1%Z, with_output Stderr
                    [[OStr "Failed getting URLs:"; OErr (DecodeErr e)]]
                    (after_fetch u w))
        | None =>
            (0%Z, with_output Stdout
                    ((λ url, [OStr url])
                       <$> album_urls (elems (Items (json.Decode body).1)))
                    (after_fetch u w))
        end
    end.
Proof.
  intros u. subst u. unfold main_fetch, bind.
  destruct (net (request_url genre subgenre ranking format))
    as [err|body] eqn:Hnet.
  - rewrite (getURLs_transport _ _ _ _ _ _ _ Hnet). cbn [fst snd].
    by rewrite Fprintln_output.
  - destruct (json.Decode body).2 as [e|] eqn:He.
    + rewrite (getURLs_decode_failed _ _ _ _ _ _ _ _ Hnet He). cbn [fst snd].
      by rewrite Fprintln_output.
    + rewrite (getURLs_decoded _ _ _ _ _ _ _ Hnet He). cbn [fst snd].
      rewrite (for_range_output _ _ (λ url, [[OStr url]]) Stdout)
        by (intros; apply Fprintln_output).
      cbn [fst snd ret]. rewrite getURLs_loop_spec.
      by rewrite (bind_singletons (λ url, [OStr url])).
Qed.

(** [main] in one equation: listing, usage error, or fetch. *)
Lemma main_cases net order flags w :
  main net order flags w
  = if listGenres flags then
      (0%Z, with_output Stdout (sort.Strings order ≫= genre_block) w)
    else if decide (2 ≤ strings.Count (genre flags) "/") then
      (2%Z, with_output Stderr [[OStr usage_message]] w)
    else
      main_fetch net (before_first "/" (genre flags))
        (after_first "/" (genre flags)) (ranking flags) (format flags) w.
Proof.
  destruct (listGenres flags) eqn:Hlist; [by apply main_listing|].
  destruct (decide (2 ≤ strings.Count (genre flags) "/")) as [Hmany|Hfew].
  - by apply main_usage_error.
  - apply main_fetches; [done|lia].
Qed.

(** ** Exit code, calls of [http.Get] and bodies of a whole run *)

(** X1.  The exit code of [main] once [flag.Parse] has returned (line 29
    on), for all flag values: 0 when listing; otherwise 2 when the [-genre]
    value has two or more ["/"]; otherwise 1 when [http.Get] fails or the
    body is not decodable, and 0 when the body is decodable. *)
Theorem main_exit_code net order flags w :
  (main net order flags w).1
  = if listGenres flags then 0%Z
    else if decide (2 ≤ strings.Count (genre flags) "/") then 2%Z
    else match net (request_url (before_first "/" (genre flags))
                      (after_first "/" (genre flags))
                      (ranking flags) (format flags)) with
         | inl _ => 1%Z
         | inr body => if shape.decodable body then 0%Z else 1%Z
         end.
Proof.
  rewrite main_cases.
  destruct (listGenres flags); [done|].
  destruct (decide (2 ≤ strings.Count (genre flags) "/")); [done|].
  rewrite main_fetch_outcome. cbv zeta.
  destruct (net _) as [err|body]; [done|].
  destruct (shape.decodable body) eqn:Hd.
  - by rewrite (Decode_ok _ Hd).
  - by destruct (Decode_fails _ Hd) as [e ->].
Qed.

(** X2.  The calls of [http.Get] in a run of [main] once [flag.Parse] has
    returned, for all flag values: none when listing or when the [-genre]
    value has two or more ["/"], and otherwise exactly one, with the URL
    built from the two parts of the value; whether the call succeeds makes no
    difference. *)
Theorem main_requests net order flags w :
  requests (main net order flags w).2
  = requests w
    ++ (if listGenres flags then []
        else if decide (2 ≤ strings.Count (genre flags) "/") then []
        else [request_url (before_first "/" (genre flags))
                (after_first "/" (genre flags))
                (ranking flags) (format flags)]).
Proof.
  rewrite main_cases.
  destruct (listGenres flags); [by rewrite app_nil_r|].
  destruct (decide (2 ≤ strings.Count (genre flags) "/"));
    [by rewrite app_nil_r|].
  rewrite main_fetch_outcome. cbv zeta.
  destruct (net _) as [err|body]; [done|].
  by destruct (json.Decode body).2.
Qed.

(** X3.  A run of [main] leaves no response body open that was not open
    before, on every input, and [getURLs] alone does not either. *)
Theorem main_leaves_no_body_open net order flags w :
  open_bodies (main net order flags w).2 ⊆ open_bodies w
  ∧ (∀ genre subgenre ranking format,
       open_bodies (getURLs net genre subgenre ranking format w).2
       ⊆ open_bodies w).
Proof.
  split.
  - rewrite main_cases.
    destruct (listGenres flags); [done|].
    destruct (decide (2 ≤ strings.Count (genre flags) "/")); [done|].
    rewrite main_fetch_outcome. cbv zeta.
    destruct (net _) as [err|body]; [done|].
    destruct (json.Decode body).2; simpl; set_solver.
  - intros genre subgenre ranking format.
    destruct (net (request_url genre subgenre ranking format))
      as [err|body] eqn:Hnet.
    + by rewrite (getURLs_transport _ _ _ _ _ _ _ Hnet).
    + destruct (json.Decode body).2 as [e|] eqn:He.
      * rewrite (getURLs_decode_failed _ _ _ _ _ _ _ _ Hnet He).
        simpl. set_solver.
      * rewrite (getURLs_decoded _ _ _ _ _ _ _ Hnet He). simpl. set_solver.
Qed.

(** X4.  On every path [getURLs] calls [http.Get] exactly once, with the URL
    built from its arguments, and calls no print function; and whenever it
    returns an error the slice it returns is nil. *)
Theorem getURLs_effects net genre subgenre ranking format w :
  let r := getURLs net genre subgenre ranking format w in
  requests r.2 = requests w ++ [request_url genre subgenre ranking format]
  ∧ stdout r.2 = stdout w
  ∧ stderr r.2 = stderr w
  ∧ (r.1.2 = None ∨ r.1.1 = []).
Proof.
  intros r. subst r.
  destruct (net (request_url genre subgenre ranking format))
    as [err|body] eqn:Hnet.
  - rewrite (getURLs_transport _ _ _ _ _ _ _ Hnet). simpl. auto.
  - destruct (json.Decode body).2 as [e|] eqn:He.
    + rewrite (getURLs_decode_failed _ _ _ _ _ _ _ _ Hnet He). simpl. auto.
    + rewrite (getURLs_decoded _ _ _ _ _ _ _ Hnet He). simpl. auto.
Qed.



(** ** The parts of the [-genre] value and the request URL *)

Lemma before_first_no_sep s sep : strings.Count (before_first sep s) sep = 0.
Proof.
  induction s as [|c s IH]; simpl; [done|].
  destruct (decide (c = sep)) as [->|Hc]; simpl; [done|].
  destruct (decide (c = sep)); [done|]. by rewrite IH.
Qed.

Lemma after_first_count s sep :
  strings.Count (after_first sep s) sep = strings.Count s sep - 1.
Proof.
  induction s as [|c s IH]; simpl; [done|].
  destruct (decide (c = sep)) as [->|Hc]; simpl; [lia|]. by rewrite IH.
Qed.

(** X6.  Whenever [main] goes on to fetch (listing off, at most one ["/"] in
    the [-genre] value), neither the genre nor the subgenre it passes to
    [getURLs] contains a ["/"], and the subgenre is empty exactly when the
    value has no ["/"] or nothing behind it. *)
Theorem main_parts_have_no_slash net order flags w :
  listGenres flags = false →
  strings.Count (genre flags) "/" ≤ 1 →
  let g := before_first "/" (genre flags) in
  let sub := after_first "/" (genre flags) in
  main net order flags w
  = main_fetch net g sub (ranking flags) (format flags) w
  ∧ strings.Count g "/" = 0
  ∧ strings.Count sub "/" = 0
  ∧ (sub = "" ↔ genre flags = g ∨ genre flags = g +:+ "/").
Proof.
  intros Hlist Hcount g sub. subst g sub.
  split; [by apply main_fetches|].
  split; [apply before_first_no_sep|].
  split; [rewrite after_first_count; lia|].
  pose proof (cut_at_first (genre flags) "/") as Hcut.
  destruct (decide (strings.Count (genre flags) "/" = 0)) as [Hzero|Hone].
  - destruct (Split_no_sep _ _ Hzero) as (_ & Hb & Ha).
    rewrite Ha, Hb. split; auto.
  - split.
    + intros Hsub. right. rewrite Hsub in Hcut. exact Hcut.
    + intros [Hg|Hg].
      * rewrite Hg, before_first_no_sep in Hone. done.
      * assert (Heq : before_first "/" (genre flags) +:+ "/"
                      = before_first "/" (genre flags)
                        +:+ String "/" (after_first "/" (genre flags)))
          by congruence.
        by apply (inj (String.app _)) in Heq as [= <-].
Qed.

Lemma main_parts_have_no_slash_witness :
  strings.Count (after_first "/" "rock/indie") "/" = 0.
Proof.
  exact (proj1 (proj2 (proj2
    (main_parts_have_no_slash Samples.refuses []
       {| genre := "rock/indie"; listGenres := false;
          ranking := "top"; format := "all" |}
       initial_World eq_refl (le_n 1))))).
Defined.

(** X7.  Whatever the four arguments are, the request URL starts with the
    fixed endpoint: what stands before its first ["?"] is
    ["https://bandcamp.com/api/discover/3/get_web"], and its first parameter
    is named [g]. *)
Theorem request_url_endpoint genre subgenre ranking format :
  before_first "?" (request_url genre subgenre ranking format)
  = "https://bandcamp.com/api/discover/3/get_web"
  ∧ head (param_names (request_url genre subgenre ranking format)) = Some "g".
Proof.
  split.
  - unfold request_url.
    destruct (decide (subgenre ≠ "")); rewrite ?append_assoc; reflexivity.
  - by rewrite request_url_param_names.
Qed.

(** ** The loop over the items *)

(** X8.  The loop handles each item on its own: the URLs of two runs of
    items put together are the URLs of the first followed by those of the
    second, and there are never more URLs than items. *)
Theorem getURLs_loop_app items1 items2 :
  getURLs_loop (items1 ++ items2) = getURLs_loop items1 ++ getURLs_loop items2
  ∧ length (getURLs_loop items1) ≤ length items1.
Proof.
  rewrite !getURLs_loop_spec. unfold album_urls. split.
  - by rewrite fmap_app, filter_app, fmap_app.
  - rewrite length_fmap.
    etrans; [apply length_filter|]. by rewrite length_fmap.
Qed.

(** ** Responses without items, with ill-typed members, with extra members *)

Lemma Data_members_without_items members :
  Forall (λ kv, json.matches "items" kv.1 = false
                ∨ kv.2 = json.Null ∨ kv.2 = json.Array []) members →
  fold_left (λ st kv, json.Data_member kv.1 kv.2 st.1 st.2) members
    (zero_Data, None)
  = (zero_Data, None).
Proof.
  induction 1 as [|[key x] members Hkv _ IH]; simpl; [done|].
  unfold json.Data_member at 2. simpl in Hkv.
  destruct (json.matches "items" key); [|done].
  destruct Hkv as [?|[-> | ->]]; done.
Qed.

(** X9.  A body that is [null], or an object in which every member for
    [items] is [null] or the empty array (no such member among them), is no
    error: [getURLs] returns no URLs and no error. *)
Theorem getURLs_without_items net genre subgenre ranking format w members :
  (net (request_url genre subgenre ranking format) = inr (json.Valid json.Null)
   ∨ net (request_url genre subgenre ranking format)
     = inr (json.Valid (json.Object members))
     ∧ Forall (λ kv, json.matches "items" kv.1 = false
                     ∨ kv.2 = json.Null ∨ kv.2 = json.Array []) members) →
  (getURLs net genre subgenre ranking format w).1 = ([], None).
Proof.
  intros [Hnet|[Hnet Hmembers]].
  - by rewrite (getURLs_decoded _ _ _ _ _ _ _ Hnet).
  - assert (Hdec : json.Decode (json.Valid (json.Object members))
                   = (zero_Data, None))
      by apply (Data_members_without_items _ Hmembers).
    rewrite (getURLs_decoded _ _ _ _ _ _ _ Hnet); by rewrite Hdec.
Qed.

Lemma getURLs_without_items_witness :
  (getURLs (Samples.serves (json.Valid (json.Object
      [("more_available", json.Bool true); ("items", json.Null)])))
     "rock" "" "top" "all" initial_World).1 = ([], None).
Proof.
  refine (getURLs_without_items
            (Samples.serves (json.Valid (json.Object
               [("more_available", json.Bool true); ("items", json.Null)])))
            "rock" "" "top" "all" initial_World
            [("more_available", json.Bool true); ("items", json.Null)]
            (or_intror (conj eq_refl _))).
  constructor; [left; reflexivity|].
  constructor; [right; left; reflexivity|].
  constructor.
Defined.

(** X10.  The title and the artist of an item are never used for the URLs,
    yet they must be strings: if any item of the response has a
    [primary_text] or [secondary_text] that is neither a string nor [null],
    [getURLs] fails with the decoder's error and returns no URL at all. *)
Theorem getURLs_rejects_ill_typed_text net genre subgenre ranking format w
    pre key before members1 k v members2 after post :
  net (request_url genre subgenre ranking format)
  = inr (json.Valid (json.Object
      (pre ++ (key, json.Array
                 (before ++ json.Object (members1 ++ (k, v) :: members2)
                         :: after)) :: post))) →
  json.matches "items" key = true →
  json.matches "primary_text" k || json.matches "secondary_text" k = true →
  shape.fits_string v = false →
  ∃ e, (getURLs net genre subgenre ranking format w).1
       = ([], Some (DecodeErr e)).
Proof.
  intros Hnet Hkey Hk Hv.
  assert (Hbad : shape.decodable (json.Valid (json.Object
      (pre ++ (key, json.Array
                 (before ++ json.Object (members1 ++ (k, v) :: members2)
                         :: after)) :: post))) = false).
  { simpl. rewrite forallb_app. apply andb_false_iff. right. simpl.
    apply andb_false_iff. left.
    unfold shape.Data_member_fits. rewrite Hkey. simpl.
    rewrite forallb_app. apply andb_false_iff. right. simpl.
    apply andb_false_iff. left.
    rewrite forallb_app. apply andb_false_iff. right. simpl.
    apply andb_false_iff. left.
    unfold shape.Item_member_fits. by rewrite Hk. }
  destruct (Decode_fails _ Hbad) as [e He]. exists e.
  by rewrite (getURLs_decode_failed _ _ _ _ _ _ _ _ Hnet He).
Qed.

Lemma getURLs_rejects_ill_typed_text_witness :
  ∃ e, (getURLs (Samples.serves (json.Valid (json.Object
          ([] ++ ("items", json.Array
                    ([Samples.entry "Bar" "Foo" "a" "foo" "bar"]
                     ++ json.Object ([] ++ ("primary_text", json.Number "7")
                                        :: [("url_hints",
                                             Samples.hints "a" "baz" "qux")])
                     :: [])) :: []))))
          "rock" "" "top" "all" initial_World).1
       = ([], Some (DecodeErr e)).
Proof.
  exact (getURLs_rejects_ill_typed_text
           (Samples.serves (json.Valid (json.Object
              ([] ++ ("items", json.Array
                        ([Samples.entry "Bar" "Foo" "a" "foo" "bar"]
                         ++ json.Object ([] ++ ("primary_text", json.Number "7")
                                            :: [("url_hints",
                                                 Samples.hints "a" "baz" "qux")])
                         :: [])) :: []))))
           "rock" "" "top" "all" initial_World
           [] "items" [Samples.entry "Bar" "Foo" "a" "foo" "bar"]
           [] "primary_text" (json.Number "7")
           [("url_hints", Samples.hints "a" "baz" "qux")] [] []
           eq_refl eq_refl eq_refl eq_refl).
Defined.

Lemma decode_members_eta {T : Type}
    (member : string → json.value → T → option json.error
              → T * option json.error) members st :
  fold_left (λ st kv, member kv.1 kv.2 st.1 st.2) members (st.1, st.2)
  = fold_left (λ st kv, member kv.1 kv.2 st.1 st.2) members st.
Proof. by destruct st. Qed.

(** X11.  Members the program has no field for are ignored: an item decodes
    the same with or without a member whose name selects none of its three
    fields, and a response decodes the same with or without a member whose
    name does not select [items], whatever the value of that member. *)
Theorem unknown_members_ignored :
  (∀ members1 k v members2 cur saved,
     json.matches "primary_text" k = false →
     json.matches "secondary_text" k = false →
     json.matches "url_hints" k = false →
     json.decode_Item (json.Object (members1 ++ (k, v) :: members2)) cur saved
     = json.decode_Item (json.Object (members1 ++ members2)) cur saved)
  ∧ (∀ members1 k v members2,
       json.matches "items" k = false →
       json.Decode (json.Valid (json.Object (members1 ++ (k, v) :: members2)))
       = json.Decode (json.Valid (json.Object (members1 ++ members2)))).
Proof.
  split.
  - intros members1 k v members2 cur saved Hp Hs Hu.
    unfold json.decode_Item, json.decode_struct.
    rewrite !fold_left_app. simpl.
    unfold json.Item_member at 2. rewrite Hp, Hs, Hu.
    apply decode_members_eta.
  - intros members1 k v members2 Hk.
    unfold json.Decode, json.decode_Data, json.decode_struct.
    rewrite !fold_left_app. simpl.
    unfold json.Data_member at 2. rewrite Hk.
    apply decode_members_eta.
Qed.

Lemma unknown_members_ignored_witness :
  json.Decode (json.Valid (json.Object
     ([("more_available", json.Bool true)] ++ ("args", json.Object [])
      :: [("items", json.Array Samples.untyped_items)])))
  = json.Decode (json.Valid (json.Object
     ([("more_available", json.Bool true)]
      ++ [("items", json.Array Samples.untyped_items)]))).
Proof.
  exact (proj2 unknown_members_ignored
           [("more_available", json.Bool true)] "args" (json.Object [])
           [("items", json.Array Samples.untyped_items)] eq_refl).
Defined.
